(** * Dataset profiling pipeline (src/lambda/node.js)

    A shallow embedding of the Lambda handler of the analytics platform:
    [buildProfile], the statistics table built for Power BI, the output
    naming, and the sequence of collaborator calls made by [handler].

    - JavaScript Numbers are IEEE 754 binary64 values, modelled by
      [spec_float] with the binary64 operations of the standard library
      (round to nearest, ties to even).
    - JavaScript strings are modelled by [string]; the characters are the
      ASCII ones, so the Unicode white space of [parseFloat] and [trim]
      beyond ASCII is outside the model.
    - A JavaScript object is the list of its own enumerable string-keyed
      properties in creation order; [Object_keys] gives the order in which
      the language enumerates them.
    - Array lengths ([rows.length], [nums.length]) are natural numbers.
    - The asynchronous calls to S3, the decoders and the chat-completion
      service are events of a small free monad, answered by an oracle.
    - The CSV encoder of json2csv is a parameter of the handler; the
      text of the table is read by any reader that inverts the encoder,
      and the comma-separated text with quoted fields is one such pair.
    - Output to the console is not modelled, nor are the limits of an
      engine on memory and on the number of arguments of a call. *)

From Stdlib Require Import ZArith List String Ascii Bool Lia PeanoNat.
From Stdlib Require Import DecimalString DecimalNat Sorted Permutation.
From Stdlib Require Import Floats.SpecFloat Floats.FloatOps Floats.PrimFloat.
Import ListNotations.

Open Scope string_scope.
Open Scope list_scope.

(** ** JavaScript Numbers *)

Module Num.

Definition number := spec_float.

Definition pos_zero : number := S754_zero false.
Definition neg_zero : number := S754_zero true.
Definition NaN : number := S754_nan.
Definition Infinity : number := S754_infinity false.
Definition neg_Infinity : number := S754_infinity true.

Definition add (a b : number) : number := SFadd prec emax a b.
Definition div (a b : number) : number := SFdiv prec emax a b.
Definition lt (a b : number) : bool := SFltb a b.

(** The global [isNaN] applied to a Number. *)
Definition isNaN (n : number) : bool :=
  match n with S754_nan => true | _ => false end.

(** The Number nearest to [m * 2 ^ e], and the Number nearest to an
    integer. *)
Definition dyadic (m e : Z) : number := binary_normalize prec emax m e false.
Definition of_Z (z : Z) : number := dyadic z 0.

(** The Number with the value of an array length. *)
Definition of_nat (n : nat) : number := of_Z (Z.of_nat n).

(** A Number written as a literal of the primitive floats. *)
Definition lit (f : PrimFloat.float) : number := Prim2SF f.

(** The Number nearest to [m * 10 ^ e] (ties to even), with the sign [neg]:
    the rounding of the mathematical value of a decimal literal.  For a
    negative exponent the quotient [m * 2^k / 10^(-e)] is taken with more
    than 64 bits and its last bit is set when the division is inexact, which
    leaves the rounding to nearest of the 53-bit result unchanged.  All the
    digits of the literal count, as in V8. *)
Definition round_decimal (neg : bool) (m : Z) (e : Z) : number :=
  let sgn (x : Z) := if neg then Z.opp x else x in
  if (m =? 0)%Z then S754_zero neg
  else if (0 <=? e)%Z then
    binary_normalize prec emax (sgn (m * 10 ^ e)%Z) 0 neg
  else
    let d := (10 ^ (- e))%Z in
    let k := (Z.log2 d + 66)%Z in
    let q := ((m * 2 ^ k) / d)%Z in
    let r := ((m * 2 ^ k) mod d)%Z in
    let sticky := if (r =? 0)%Z then 0%Z else 1%Z in
    binary_normalize prec emax (sgn (2 * q + sticky)%Z) (- k - 1) neg.

End Num.

Import Num.

(** ** Strings *)

Definition is_digit (c : ascii) : bool :=
  let n := nat_of_ascii c in (48 <=? n)%nat && (n <=? 57)%nat.

Definition digit_value (c : ascii) : Z := Z.of_nat (nat_of_ascii c) - 48.

(** White space of the language within ASCII: TAB, LF, VT, FF, CR, SP. *)
Definition is_white_space (c : ascii) : bool :=
  let n := nat_of_ascii c in
  ((9 <=? n)%nat && (n <=? 13)%nat) || (n =? 32)%nat.

Fixpoint trim_start (s : string) : string :=
  match s with
  | String c r => if is_white_space c then trim_start r else s
  | EmptyString => s
  end.

Fixpoint starts_with (p s : string) : bool :=
  match p, s with
  | EmptyString, _ => true
  | String a p', String b s' => Ascii.eqb a b && starts_with p' s'
  | String _ _, EmptyString => false
  end.

(** [String.prototype.endsWith]. *)
Fixpoint endsWith (s suffix : string) : bool :=
  if (String.length s =? String.length suffix)%nat then String.eqb s suffix
  else match s with
       | String _ r => endsWith r suffix
       | EmptyString => false
       end.

Fixpoint all_digits (s : string) : bool :=
  match s with
  | String c r => is_digit c && all_digits r
  | EmptyString => true
  end.

Fixpoint no_digits (s : string) : bool :=
  match s with
  | String c r => negb (is_digit c) && no_digits r
  | EmptyString => true
  end.

Definition no_leading_digit (t : string) : bool :=
  match t with
  | String c _ => negb (is_digit c)
  | EmptyString => true
  end.

(** ** parseFloat *)

(** The longest run of decimal digits at the start of [s], and the rest. *)
Fixpoint span_digits (s : string) : string * string :=
  match s with
  | String c r =>
      if is_digit c then let (ds, rest) := span_digits r in (String c ds, rest)
      else (EmptyString, s)
  | EmptyString => (EmptyString, EmptyString)
  end.

(** The value of a run of digits read after the digits of value [acc]. *)
Fixpoint digits_value (acc : Z) (ds : string) : Z :=
  match ds with
  | String c r => digits_value (10 * acc + digit_value c) r
  | EmptyString => acc
  end.

(** An optional sign: [true] for a minus. *)
Definition span_sign (s : string) : bool * string :=
  match s with
  | String "-" r => (true, r)
  | String "+" r => (false, r)
  | _ => (false, s)
  end.

(** ExponentPart at the start of [s], when there is one: [e] or [E], an
    optional sign and at least one digit. *)
Definition scan_exponent (s : string) : Z :=
  match s with
  | String c r =>
      if Ascii.eqb c "e" || Ascii.eqb c "E" then
        let (neg, r1) := span_sign r in
        let (ds, _) := span_digits r1 in
        match ds with
        | EmptyString => 0%Z
        | _ => if neg then (- digits_value 0 ds)%Z else digits_value 0 ds
        end
      else 0%Z
  | EmptyString => 0%Z
  end.

(** The longest prefix of [s] that is a StrUnsignedDecimalLiteral other
    than [Infinity], as mantissa and decimal exponent; [None] when no
    prefix is one. *)
Definition scan_decimal (s : string) : option (Z * Z) :=
  let (ip, r1) := span_digits s in
  let (fp, r2) :=
    match r1 with
    | String "." r => span_digits r
    | _ => (EmptyString, r1)
    end in
  match ip, fp with
  | EmptyString, EmptyString => None
  | _, _ =>
      Some (digits_value (digits_value 0 ip) fp,
            (scan_exponent r2 - Z.of_nat (String.length fp))%Z)
  end.

(** [parseFloat] on a string: leading white space is skipped, the longest
    prefix that is a StrDecimalLiteral is read and the rest is ignored. *)
Definition parseFloat_string (s : string) : number :=
  let (neg, r) := span_sign (trim_start s) in
  if starts_with "Infinity" r then S754_infinity neg
  else match scan_decimal r with
       | Some (m, e) => round_decimal neg m e
       | None => NaN
       end.

(** ** Decimal literals *)

(** The finite literals of the grammar of StrDecimalLiteral, by their
    parts: an optional sign, the digits before the point, the digits after
    a point when there is a point, and an exponent part when there is one,
    made of its letter, an optional sign and digits. *)
Inductive sign : Type := NoSign | Plus | Minus.

Record decimal_literal : Type :=
  { lit_sign : sign;
    int_digits : string;
    fraction : option string;
    exponent : option (ascii * sign * string) }.

Definition sign_text (s : sign) : string :=
  match s with NoSign => EmptyString | Plus => "+" | Minus => "-" end.

Definition is_minus (s : sign) : bool :=
  match s with Minus => true | _ => false end.

Definition fraction_text (f : option string) : string :=
  match f with Some ds => String "." ds | None => EmptyString end.

Definition exponent_text (x : option (ascii * sign * string)) : string :=
  match x with
  | Some (c, s, ds) => String c (sign_text s ++ ds)
  | None => EmptyString
  end.

Definition literal_text (d : decimal_literal) : string :=
  sign_text (lit_sign d)
  ++ int_digits d ++ fraction_text (fraction d) ++ exponent_text (exponent d).

Definition fraction_digits (d : decimal_literal) : string :=
  match fraction d with Some ds => ds | None => EmptyString end.

(** An exponent part has the letter [e] or [E] and at least one digit. *)
Definition exponent_well_formed (x : option (ascii * sign * string)) : bool :=
  match x with
  | Some (c, _, ds) =>
      (Ascii.eqb c "e" || Ascii.eqb c "E") && all_digits ds
      && negb (String.eqb ds EmptyString)
  | None => true
  end.

(** The parts of a literal are digits, and there is a digit before or
    after the point. *)
Definition well_formed (d : decimal_literal) : bool :=
  all_digits (int_digits d) && all_digits (fraction_digits d)
  && negb (String.eqb (int_digits d) EmptyString
           && String.eqb (fraction_digits d) EmptyString)
  && exponent_well_formed (exponent d).

Definition exponent_value (d : decimal_literal) : Z :=
  match exponent d with
  | Some (_, s, ds) =>
      if is_minus s then (- digits_value 0 ds)%Z else digits_value 0 ds
  | None => 0%Z
  end.

(** The Number of a literal: its digits without the point, scaled by the
    power of ten of the exponent less the number of digits after the
    point, and rounded. *)
Definition literal_number (d : decimal_literal) : number :=
  round_decimal (is_minus (lit_sign d))
    (digits_value 0 (int_digits d ++ fraction_digits d))
    (exponent_value d - Z.of_nat (String.length (fraction_digits d))).

(** ** Objects *)

(** An object: its own enumerable string-keyed properties, in the order of
    their creation. *)
Definition object (V : Type) : Type := list (string * V).

Fixpoint get_own {V} (o : object V) (k : string) : option V :=
  match o with
  | [] => None
  | (k', v) :: r => if String.eqb k' k then Some v else get_own r k
  end.

(** Creating or updating an own property keeps the place of an existing key
    and puts a new key last. *)
Fixpoint set_own {V} (o : object V) (k : string) (v : V) : object V :=
  match o with
  | [] => [(k, v)]
  | (k', v') :: r =>
      if String.eqb k' k then (k, v) :: r else (k', v') :: set_own r k v
  end.

(** [o[k] = v] on an object created by a literal: the key [__proto__] runs
    the inherited setter and creates no own property. *)
Definition assign {V} (o : object V) (k : string) (v : V) : object V :=
  if String.eqb k "__proto__" then o else set_own o k v.

(** An array index: the canonical decimal text of an integer from 0 to
    2^32 - 2. *)
Definition array_index (k : string) : option Z :=
  match k with
  | EmptyString => None
  | String c r =>
      if all_digits k
         && (negb (Ascii.eqb c "0") || String.eqb r EmptyString)
         && (digits_value 0 k <=? 4294967294)%Z
      then Some (digits_value 0 k) else None
  end.

Definition is_array_index (k : string) : bool :=
  match array_index k with Some _ => true | None => false end.

Fixpoint insert_by_index {V} (i : Z) (p : string * V) (l : object V)
  : object V :=
  match l with
  | [] => [p]
  | q :: r =>
      match array_index (fst q) with
      | Some j => if (i <=? j)%Z then p :: l else q :: insert_by_index i p r
      | None => p :: l
      end
  end.

Definition indexed_properties {V} (o : object V) : object V :=
  fold_right
    (fun p acc =>
       match array_index (fst p) with
       | Some i => insert_by_index i p acc
       | None => acc
       end) [] o.

(** The order in which the own properties are enumerated: the array
    indices in ascending order, then the other keys in creation order. *)
Definition own_property_order {V} (o : object V) : object V :=
  indexed_properties o
  ++ filter (fun p => negb (is_array_index (fst p))) o.

Definition Object_keys {V} (o : object V) : list string :=
  map fst (own_property_order o).

Definition Object_entries {V} (o : object V) : list (string * V) :=
  own_property_order o.

(** ** Rows *)

(** A cell as the decoders give it: text from a delimited file, and also
    numbers and booleans from a spreadsheet. *)
Inductive value : Type :=
| VUndefined
| VBoolean (b : bool)
| VNumber (n : number)
| VString (s : string).

Definition Row : Type := object value.

(** [r[col]]: a key the row does not own reads as [undefined], or as an
    inherited member of [Object.prototype]; [parseFloat] gives NaN for
    both, and the model has [VUndefined] for them. *)
Definition prop (r : Row) (col : string) : value :=
  match get_own r col with
  | Some v => v
  | None => VUndefined
  end.

(** [parseFloat] converts its argument to a string first.  A Number prints
    with digits that read back as the same Number, a zero of either sign as
    [0], NaN and the infinities by their names; [undefined], [true] and
    [false] print as words that start no literal. *)
Definition parseFloat (v : value) : number :=
  match v with
  | VString s => parseFloat_string s
  | VNumber (S754_zero _) => pos_zero
  | VNumber n => n
  | VBoolean _ => NaN
  | VUndefined => NaN
  end.

(** ** buildProfile *)

Module Stat.
Record ColumnStat : Type :=
  { count : nat; sum : number; avg : number; min : number; max : number }.
End Stat.
Abbreviation ColumnStat := Stat.ColumnStat.

Record DatasetProfile : Type :=
  { rowCount : nat; numericCols : object ColumnStat }.

(** [Math.min] and [Math.max] of a list of arguments: NaN when an
    argument is NaN; otherwise the arguments are compared one by one from
    the infinity, and of two zeros the negative is the lower. *)
Definition min_step (lowest n : number) : number :=
  match n, lowest with
  | S754_zero true, S754_zero false => n
  | _, _ => if lt n lowest then n else lowest
  end.

Definition max_step (highest n : number) : number :=
  match n, highest with
  | S754_zero false, S754_zero true => n
  | _, _ => if lt highest n then n else highest
  end.

Definition Math_min (l : list number) : number :=
  if existsb isNaN l then NaN else fold_left min_step l Infinity.

Definition Math_max (l : list number) : number :=
  if existsb isNaN l then NaN else fold_left max_step l neg_Infinity.

(** [rows.map((r) => parseFloat(r[col])).filter((n) => !isNaN(n))] *)
Definition column_numbers (rows : list Row) (col : string) : list number :=
  filter (fun n => negb (isNaN n))
         (map (fun r => parseFloat (prop r col)) rows).

(** The statistics of a non-empty list of numbers. *)
Definition stats_of (nums : list number) : ColumnStat :=
  let sum := fold_left add nums pos_zero in
  let avg := div sum (of_nat (List.length nums)) in
  {| Stat.count := List.length nums; Stat.sum := sum; Stat.avg := avg;
     Stat.min := Math_min nums; Stat.max := Math_max nums |}.

(** The body of the [cols.forEach] callback, on the object built so far. *)
Definition profile_column (rows : list Row)
  (numericCols : object ColumnStat) (col : string) : object ColumnStat :=
  let nums := column_numbers rows col in
  if (0 <? List.length nums)%nat then assign numericCols col (stats_of nums)
  else numericCols.

Definition buildProfile (rows : list Row) : DatasetProfile :=
  match rows with
  | [] => {| rowCount := 0; numericCols := [] |}
  | sample :: _ =>
      let cols := Object_keys sample in
      {| rowCount := List.length rows;
         numericCols := fold_left (profile_column rows) cols [] |}
  end.

(** ** The statistics table *)

(** A field of a table row: a Number or a string. *)
Inductive cell : Type :=
| CNumber (n : number)
| CString (s : string).

Record csvRow : Type :=
  { Column : string; Count : nat; Sum : cell; Avg : cell; Min : cell;
    Max : cell }.

Definition stat_row (entry : string * ColumnStat) : csvRow :=
  let (col, stats) := entry in
  {| Column := col; Count := Stat.count stats;
     Sum := CNumber (Stat.sum stats); Avg := CNumber (Stat.avg stats);
     Min := CNumber (Stat.min stats); Max := CNumber (Stat.max stats) |}.

Definition rowcount_row (profile : DatasetProfile) : csvRow :=
  {| Column := "__ROWCOUNT__"; Count := rowCount profile;
     Sum := CString EmptyString; Avg := CString EmptyString;
     Min := CString EmptyString; Max := CString EmptyString |}.

(** The rows handed to the CSV encoder: the entries of [numericCols], with
    the row count put in front ([unshift]). *)
Definition csvRows (profile : DatasetProfile) : list csvRow :=
  rowcount_row profile :: map stat_row (Object_entries (numericCols profile)).

(** ** Collaborators *)

(** A thrown value: the name of the error and its message. *)
Inductive exn : Type :=
| Exn (name message : string).

Definition Error (message : string) : exn := Exn "Error" message.
Definition TypeError (message : string) : exn := Exn "TypeError" message.

Definition bytes : Type := string.

(** The awaited operations, indexed by the type of what they resolve to.
    - [GetObject]: [s3Client.send(new GetObjectCommand(..))] and the reading
      of the body with [transformToByteArray];
    - [parseCsvFromS3], [parseXlsxFromS3]: the two decoders;
    - [chat_completions_create]: the request to the chat-completion
      service, with [json] set when a JSON object is asked for; it resolves
      to the [message.content] of each choice, [None] for a missing one;
    - [PutObject]: [s3Client.send(new PutObjectCommand(..))]. *)
Inductive call : Type -> Type :=
| GetObject (Bucket Key : string) : call bytes
| parseCsvFromS3 (body : bytes) : call (list Row)
| parseXlsxFromS3 (body : bytes) : call (list Row)
| chat_completions_create (prompt : string) (json : bool)
    : call (list (option string))
| PutObject (Bucket Key Body : string) : call unit.

(** A computation that awaits collaborators: it returns, throws, or awaits
    a call and goes on with its outcome, a rejection or a value. *)
Inductive io (A : Type) : Type :=
| Ret (a : A)
| Throw (e : exn)
| Await {R : Type} (c : call R) (k : exn + R -> io A).

Arguments Ret {A} a.
Arguments Throw {A} e.
Arguments Await {A R} c k.

Fixpoint bind {A B} (p : io A) (f : A -> io B) : io B :=
  match p with
  | Ret a => f a
  | Throw e => Throw e
  | Await c k => Await c (fun r => bind (k r) f)
  end.

(** [await c]: a rejection is thrown at the place of the [await]. *)
Definition await {R} (c : call R) : io R :=
  Await c (fun r => match r with inl e => Throw e | inr v => Ret v end).

(** [try { p } catch (err) { h err }] *)
Fixpoint try_catch {A} (p : io A) (h : exn -> io A) : io A :=
  match p with
  | Ret a => Ret a
  | Throw e => h e
  | Await c k => Await c (fun r => try_catch (k r) h)
  end.

(** [for (const x of l) { body x }] *)
Fixpoint for_of {A} (l : list A) (body : A -> io unit) : io unit :=
  match l with
  | [] => Ret tt
  | x :: r => bind (body x) (fun _ => for_of r body)
  end.

Declare Scope io_scope.
Delimit Scope io_scope with io.
Notation "x <- c1 ;; c2" := (bind c1 (fun x => c2))
  (at level 100, c1 at next level, right associativity) : io_scope.
Notation "c1 ;;; c2" := (bind c1 (fun _ => c2))
  (at level 100, right associativity) : io_scope.

(** One awaited call with its outcome. *)
Inductive event : Type :=
| Event {R : Type} (c : call R) (r : exn + R).

(** The collaborators: the outcome of a call, given the calls made so far
    in the invocation. *)
Definition oracle : Type := list event -> forall R, call R -> exn + R.

(** Running a computation: the calls made, in order, and whether it
    returned or threw. *)
Fixpoint run {A} (env : oracle) (history : list event) (p : io A)
  : list event * (exn + A) :=
  match p with
  | Ret a => (history, inr a)
  | Throw e => (history, inl e)
  | Await c k =>
      let r := env history _ c in
      run env (history ++ [Event c r]) (k r)
  end.

(** ** The handler *)

Definition nl : string := String (ascii_of_nat 10) EmptyString.

(** A non-negative integer Number in a template literal. *)
Definition nat_to_string (n : nat) : string :=
  NilZero.string_of_uint (Nat.to_uint n).

Fixpoint trim_end (s : string) : string :=
  match s with
  | EmptyString => EmptyString
  | String c r =>
      match trim_end r with
      | EmptyString => if is_white_space c then EmptyString
                       else String c EmptyString
      | r' => String c r'
      end
  end.

(** [String.prototype.trim] *)
Definition trim (s : string) : string := trim_end (trim_start s).

(** [s.replace(/\+/g, " ")] *)
Fixpoint replace_plus (s : string) : string :=
  match s with
  | EmptyString => EmptyString
  | String c r => String (if Ascii.eqb c "+" then " "%char else c)
                         (replace_plus r)
  end.

(** [s.split(sep)] for a separator of one character: never empty. *)
Fixpoint split (sep : ascii) (s : string) : list string :=
  match s with
  | EmptyString => [EmptyString]
  | String c r =>
      if Ascii.eqb c sep then EmptyString :: split sep r
      else match split sep r with
           | p :: ps => String c p :: ps
           | [] => [String c EmptyString]
           end
  end.

(** [key.split("/").pop().split(".")[0]] *)
Definition baseName (key : string) : string :=
  hd EmptyString (split "." (last (split "/" key) EmptyString)).

Record S3Record : Type :=
  { object_key : string; bucket_name : string }.

Record S3Event : Type := { Records : list S3Record }.

Record response : Type := { statusCode : nat; body : string }.

Section Handler.

(** The parts of the platform that the handler uses as they are: the
    decoding of a URI component, which throws on a malformed escape, the
    JSON encoder with an indentation of two, the CSV encoder configured
    with the six fields, and the output bucket of the environment. *)
Variable decodeURIComponent : string -> exn + string.
Variable JSON_stringify_numericCols : object ColumnStat -> string.
Variable JSON_stringify_profile : DatasetProfile -> string.
Variable csvParser_parse : list csvRow -> string.
Variable OUTPUT_BUCKET : string.

(** [res.choices[0].message.content.trim()] *)
Definition first_content (choices : list (option string)) : io string :=
  match choices with
  | Some content :: _ => Ret (trim content)
  | _ => Throw (TypeError "Cannot read properties of undefined")
  end.

Definition generateAiSummary (rows : list Row) (profile : DatasetProfile)
  : io string :=
  let prompt := (
    nl ++ "You are a data analyst. Summarize this dataset in plain English."
    ++ nl ++ "Dataset has " ++ nat_to_string (rowCount profile) ++ " rows."
    ++ nl ++ "Numeric columns and their stats:"
    ++ nl ++ JSON_stringify_numericCols (numericCols profile)
    ++ nl ++ "Provide a concise readable analysis with trends, anomalies,"
    ++ " and key findings."
    ++ nl ++ "  ")%string in
  (res <- await (chat_completions_create prompt false) ;;
   first_content res)%io.

Definition generateAiJsonSummary (profile : DatasetProfile) : io string :=
  let prompt := (
    nl ++ "Summarize this dataset as JSON for BI dashboards."
    ++ nl ++ "Include insights, trends, anomalies, recommendations."
    ++ nl ++ "Dataset stats:"
    ++ nl ++ JSON_stringify_profile profile
    ++ nl ++ "Output JSON only."
    ++ nl ++ "  ")%string in
  (res <- await (chat_completions_create prompt true) ;;
   first_content res)%io.

(** The three outputs, as extension and body. *)
Definition outputs (textSummary jsonSummary csvSummary : string)
  : list (string * string) :=
  [ ("txt", textSummary); ("json", jsonSummary); ("csv", csvSummary) ].

Definition outKey (key ext : string) : string :=
  ("summaries/" ++ baseName key ++ "." ++ ext)%string.

(** The body of the [try] block, for the decoded key and the bucket of
    the record: fetch, decode by the ending of the key, profile, the two
    summaries, the table, and the three writes in turn. *)
Definition pipeline (bucket key : string) : io response :=
  (body <- await (GetObject bucket key) ;;
   rows <- (if endsWith key ".csv" then await (parseCsvFromS3 body)
            else if endsWith key ".xlsx" then await (parseXlsxFromS3 body)
            else Throw (Error "Unsupported file type")) ;;
   let profile := buildProfile rows in
   textSummary <- generateAiSummary rows profile ;;
   jsonSummary <- generateAiJsonSummary profile ;;
   let csvSummary := csvParser_parse (csvRows profile) in
   for_of (outputs textSummary jsonSummary csvSummary)
     (fun out =>
        await (PutObject OUTPUT_BUCKET (outKey key (fst out)) (snd out))) ;;;
   Ret {| statusCode := 200; body := "Summaries generated successfully" |})%io.

(** The handler: the first record of the event gives the key, with [+]
    read as a space and the escapes decoded, and the bucket; what the
    [try] block throws is caught and thrown again. *)
Definition handler (event : S3Event) : io response :=
  match Records event with
  | [] => Throw (TypeError "Cannot read properties of undefined")
  | record :: _ =>
      match decodeURIComponent (replace_plus (object_key record)) with
      | inl e => Throw e
      | inr key =>
          let bucket := bucket_name record in
          try_catch (pipeline bucket key) (fun err => Throw err)
      end
  end.

(** The three writes of a run that decoded [rows]. *)
Definition writes (key : string) (rows : list Row)
  (textSummary jsonSummary : string) : list (string * string * string) :=
  [ (OUTPUT_BUCKET, outKey key "txt", textSummary);
    (OUTPUT_BUCKET, outKey key "json", jsonSummary);
    (OUTPUT_BUCKET, outKey key "csv",
     csvParser_parse (csvRows (buildProfile rows))) ].

(** An invocation for the decoded key [key], with its trace and
    outcome. *)
Definition invocation (env : oracle) (trigger : S3Event) (key : string)
  (tr : list event) (out : exn + response) : Prop :=
  exists record rest,
    Records trigger = record :: rest
    /\ decodeURIComponent (replace_plus (object_key record)) = inr key
    /\ run env [] (handler trigger) = (tr, out).

End Handler.

(** ** Sample inputs *)

(** The rows of the scenario: [{amt:"10"},{amt:"20"},{amt:"x"}]. *)
Definition scenario_rows : list Row :=
  [ [("amt", VString "10")]; [("amt", VString "20")]; [("amt", VString "x")] ].

Definition scenario_stat : ColumnStat :=
  {| Stat.count := 2; Stat.sum := of_Z 30; Stat.avg := of_Z 15;
     Stat.min := of_Z 10; Stat.max := of_Z 20 |}.

Definition infinity_rows : list Row := [ [("amt", VString "Infinity")] ].

Definition infinity_stat : ColumnStat :=
  {| Stat.count := 1; Stat.sum := Infinity; Stat.avg := Infinity;
     Stat.min := Infinity; Stat.max := Infinity |}.



(** The literal [3.5]. *)
Definition three_and_a_half : decimal_literal :=
  {| lit_sign := NoSign; int_digits := "3"; fraction := Some "5";
     exponent := None |}.

(** A cell value is discarded for a column when a row that holds it
    leaves the numbers collected for the column as they are without the
    row. *)
Definition discarded (v : value) : Prop :=
  forall pre r post col,
    prop r col = v ->
    column_numbers (pre ++ r :: post) col = column_numbers (pre ++ post) col.

(** A cell value is kept as the number [n] when a row that holds it adds
    [n], at the place of the row, to the numbers collected for the
    column. *)
Definition kept_as (v : value) (n : number) : Prop :=
  forall pre r post col,
    prop r col = v ->
    column_numbers (pre ++ r :: post) col
    = column_numbers pre col ++ n :: column_numbers post col.

(** ** Reading a trace *)

(** The error of a call that was rejected. *)
Definition failure (ev : event) : option exn :=
  match ev with
  | Event _ (inl e) => Some e
  | Event _ (inr _) => None
  end.

(** The bucket, key and body of a write to S3. *)
Definition put_of (ev : event) : list (string * string * string) :=
  match ev with
  | Event c _ =>
      match c with
      | PutObject b k body => [(b, k, body)]
      | _ => []
      end
  end.

Definition puts (tr : list event) : list (string * string * string) :=
  flat_map put_of tr.

(** The rows that a decoder resolved to. *)
Definition decoded_of (ev : event) : list (list Row) :=
  match ev with
  | Event c r =>
      match c in call R return exn + R -> list (list Row) with
      | parseCsvFromS3 _ | parseXlsxFromS3 _ =>
          fun r => match r with inr rows => [rows] | inl _ => [] end
      | _ => fun _ => []
      end r
  end.

Definition decoded (tr : list event) : list (list Row) :=
  flat_map decoded_of tr.

(** A computation propagates rejections when each of its awaits throws
    the rejection it receives. *)
Inductive propagates {A} : io A -> Prop :=
| propagates_Ret a : propagates (Ret a)
| propagates_Throw e : propagates (Throw e)
| propagates_Await {R} (c : call R) k :
    (forall e, k (inl e) = Throw e) ->
    (forall v, propagates (k (inr v))) ->
    propagates (Await c k).

(** In a trace with an outcome, a rejected call is the last call and its
    error is the outcome. *)
Definition aborts_on_failure {A} (tr : list event) (out : exn + A) : Prop :=
  forall pre ev post e,
    tr = pre ++ ev :: post -> failure ev = Some e ->
    post = [] /\ out = inl e.

(** ** Texts and their separators *)

Fixpoint occurs (c : ascii) (s : string) : bool :=
  match s with
  | String d r => Ascii.eqb d c || occurs c r
  | EmptyString => false
  end.

(** [parts.join(sep)] for a non-empty list of parts. *)
Fixpoint join (sep : ascii) (parts : list string) : string :=
  match parts with
  | [] => EmptyString
  | [p] => p
  | p :: rest => p ++ String sep (join sep rest)
  end.

(** ** A sample platform and sample collaborators *)

Definition sample_decodeURIComponent (s : string) : exn + string := inr s.

Definition sample_stringify_numericCols (o : object ColumnStat) : string :=
  nat_to_string (List.length o).

Definition sample_stringify_profile (p : DatasetProfile) : string :=
  nat_to_string (rowCount p).

(** The first two fields of each row, one row a line. *)
Definition sample_csv (rows : list csvRow) : string :=
  concat nl (map (fun r => Column r ++ "," ++ nat_to_string (Count r))%string
                 rows).

Definition sample_handler : S3Event -> io response :=
  handler sample_decodeURIComponent sample_stringify_numericCols
    sample_stringify_profile sample_csv "out-bucket".

Definition event_for (key : string) : S3Event :=
  {| Records := [ {| object_key := key; bucket_name := "in-bucket" |} ] |}.

(** Collaborators that all succeed; the narrative is [narrative]. *)
Definition ok_env (narrative : string) : oracle :=
  fun _ R c =>
    match c in call R return exn + R with
    | GetObject _ _ => inr "amt,10,20,x"
    | parseCsvFromS3 _ => inr scenario_rows
    | parseXlsxFromS3 _ => inr scenario_rows
    | chat_completions_create _ json =>
        inr [Some (if json then "{}" else narrative)]
    | PutObject _ _ _ => inr tt
    end.

Definition AccessDenied : exn := Exn "AccessDenied" "Access Denied".

(** Collaborators among which the write of the [.json] object is
    rejected. *)
Definition json_put_fails : oracle :=
  fun history R c =>
    match c in call R return exn + R with
    | PutObject _ Key _ =>
        if endsWith Key ".json" then inl AccessDenied else inr tt
    | c' => ok_env "A summary." history _ c'
    end.

Definition sample_invocation
  : oracle -> S3Event -> string -> list event -> exn + response -> Prop :=
  invocation sample_decodeURIComponent sample_stringify_numericCols
    sample_stringify_profile sample_csv "out-bucket".

(** ** The order of enumeration *)

(** [k] may come before [k'] when the keys of an object are enumerated:
    an array index before a larger or equal one and before any other key,
    and other keys in any order. *)
Definition precedes (k k' : string) : Prop :=
  match array_index k, array_index k' with
  | Some i, Some j => (i <= j)%Z
  | Some _, None => True
  | None, Some _ => False
  | None, None => True
  end.

Definition enumeration_order (ks : list string) : Prop :=
  StronglySorted precedes ks.

(** ** Which columns are profiled *)

(** The test of the [forEach] callback, with the effect of an assignment
    to [__proto__]: the column gets an entry when a value of it parsed. *)
Definition profiled (rows : list Row) (col : string) : bool :=
  negb (String.eqb col "__proto__")
  && (0 <? List.length (column_numbers rows col))%nat.

Definition opposite_infinities : list Row :=
  [ [("a", VString "Infinity")]; [("a", VString "-Infinity")] ].

(** ** White space *)

Fixpoint all_white (s : string) : bool :=
  match s with
  | String c r => is_white_space c && all_white r
  | EmptyString => true
  end.

Definition starts_white (s : string) : bool :=
  match s with
  | String c _ => is_white_space c
  | EmptyString => false
  end.

Fixpoint ends_white (s : string) : bool :=
  match s with
  | EmptyString => false
  | String c EmptyString => is_white_space c
  | String _ r => ends_white r
  end.

(** ** The calls of an invocation *)

Inductive call_kind : Type :=
| Fetch
| DecodeCsv
| DecodeXlsx
| Generate (json : bool)
| Write.

Definition kind_of (ev : event) : call_kind :=
  match ev with
  | Event c _ =>
      match c with
      | GetObject _ _ => Fetch
      | parseCsvFromS3 _ => DecodeCsv
      | parseXlsxFromS3 _ => DecodeXlsx
      | chat_completions_create _ json => Generate json
      | PutObject _ _ _ => Write
      end
  end.

(** The calls of the [try] block in the order of the source, with the
    decoder of the ending of the key. *)
Definition script (key : string) : list call_kind :=
  [ Fetch; (if endsWith key ".csv" then DecodeCsv else DecodeXlsx);
    Generate false; Generate true; Write; Write; Write ].

(** The choices that the text generation resolved to. *)
Definition generated_of (ev : event) : list (list (option string)) :=
  match ev with
  | Event c r =>
      match c in call R return exn + R -> list (list (option string)) with
      | chat_completions_create _ _ =>
          fun r => match r with inr choices => [choices] | inl _ => [] end
      | _ => fun _ => []
      end r
  end.

Definition generated (tr : list event) : list (list (option string)) :=
  flat_map generated_of tr.

(** The first choice has no content. *)
Definition no_content (choices : list (option string)) : bool :=
  match choices with
  | Some _ :: _ => false
  | _ => true
  end.

(** The object of a fetch: bucket and key. *)
Definition fetched_of (ev : event) : list (string * string) :=
  match ev with
  | Event c _ =>
      match c with
      | GetObject b k => [(b, k)]
      | _ => []
      end
  end.

Definition fetched (tr : list event) : list (string * string) :=
  flat_map fetched_of tr.

Definition ok_response : response :=
  {| statusCode := 200; body := "Summaries generated successfully" |}.

(** Collaborators among which the narrative has no content. *)
Definition narrative_without_content : oracle :=
  fun history R c =>
    match c in call R return exn + R with
    | chat_completions_create _ false => inr [None]
    | c' => ok_env "A summary." history _ c'
    end.

Definition URIError : exn := Exn "URIError" "URI malformed".

(** A decoder of URI components that rejects every escape. *)
Definition strict_decodeURIComponent (s : string) : exn + string :=
  if occurs "%" s then inl URIError else inr s.

Definition strict_handler : S3Event -> io response :=
  handler strict_decodeURIComponent sample_stringify_numericCols
    sample_stringify_profile sample_csv "out-bucket".

(** ** Least and greatest members *)

(** [m] is a least member of [l] in the order of [Math.min]: a member
    below which no member lies, and not the positive zero when the
    negative zero is a member. *)
Definition least_of (l : list number) (m : number) : Prop :=
  In m l
  /\ (forall x, In x l -> lt x m = false)
  /\ (In neg_zero l -> m <> pos_zero).

(** Below the positive zero and above the negative zero in these
    orders. *)
Definition below_zero (x : number) : Prop :=
  x = neg_zero \/ lt x pos_zero = true.

Definition above_zero (x : number) : Prop :=
  x = pos_zero \/ lt neg_zero x = true.

(** [m] is a greatest member of [l] in the order of [Math.max]. *)
Definition greatest_of (l : list number) (m : number) : Prop :=
  In m l
  /\ (forall x, In x l -> lt m x = false)
  /\ (In pos_zero l -> m <> neg_zero).

(** ** The requests to the text generation *)

(** The prompt and the mode of a request. *)
Definition request_of (ev : event) : list (string * bool) :=
  match ev with
  | Event c _ =>
      match c with
      | chat_completions_create prompt json => [(prompt, json)]
      | _ => []
      end
  end.

Definition requests (tr : list event) : list (string * bool) :=
  flat_map request_of tr.

Section Prompts.

Variable JSON_stringify_numericCols : object ColumnStat -> string.
Variable JSON_stringify_profile : DatasetProfile -> string.

(** The template literal of [generateAiSummary], as a function of the
    profile. *)
Definition narrative_prompt (profile : DatasetProfile) : string :=
  (nl ++ "You are a data analyst. Summarize this dataset in plain English."
   ++ nl ++ "Dataset has " ++ nat_to_string (rowCount profile) ++ " rows."
   ++ nl ++ "Numeric columns and their stats:"
   ++ nl ++ JSON_stringify_numericCols (numericCols profile)
   ++ nl ++ "Provide a concise readable analysis with trends, anomalies,"
   ++ " and key findings."
   ++ nl ++ "  ")%string.

(** The template literal of [generateAiJsonSummary]. *)
Definition structured_prompt (profile : DatasetProfile) : string :=
  (nl ++ "Summarize this dataset as JSON for BI dashboards."
   ++ nl ++ "Include insights, trends, anomalies, recommendations."
   ++ nl ++ "Dataset stats:"
   ++ nl ++ JSON_stringify_profile profile
   ++ nl ++ "Output JSON only."
   ++ nl ++ "  ")%string.

End Prompts.

(** Rows with a numeric column of the name of the row-count row. *)
Definition rowcount_column_rows : list Row :=
  [ [("__ROWCOUNT__", VString "5"); ("amt", VString "1")] ].

(** ** The text of the table *)


Section TableText.

(** The text of a Number in a field. *)
Variable Number_toString : number -> string.





End TableText.















(** * Properties *)

(** ** parseFloat on sample texts *)

Example parseFloat_integer : parseFloat_string "10" = lit 10.
Proof. vm_compute. reflexivity. Qed.

Example of_Z_literals :
  of_Z 10 = lit 10 /\ of_Z 15 = lit 15 /\ of_Z 20 = lit 20
  /\ of_Z 30 = lit 30 /\ dyadic 7 (-1) = lit 3.5.
Proof. vm_compute. repeat split. Qed.

Example parseFloat_tenth : parseFloat_string "0.1" = lit 0x1.999999999999ap-4.
Proof. vm_compute. reflexivity. Qed.

Example parseFloat_signed :
  parseFloat_string "  -2.5e-1abc" = lit (-0.25).
Proof. vm_compute. reflexivity. Qed.

Example parseFloat_tie :
  parseFloat_string "9007199254740993" = lit 9007199254740992.
Proof. vm_compute. reflexivity. Qed.

Example parseFloat_above_tie :
  parseFloat_string "9007199254740993.0000000000000000000000001"
  = lit 9007199254740994.
Proof. vm_compute. reflexivity. Qed.

Example parseFloat_smallest : parseFloat_string "5e-324" = lit 0x1p-1074.
Proof. vm_compute. reflexivity. Qed.

Example parseFloat_underflow : parseFloat_string "2e-324" = pos_zero.
Proof. vm_compute. reflexivity. Qed.

Example parseFloat_overflow : parseFloat_string "1e309" = Infinity.
Proof. vm_compute. reflexivity. Qed.

Example parseFloat_point_only : parseFloat_string ".e5" = NaN.
Proof. vm_compute. reflexivity. Qed.

Example parseFloat_empty : parseFloat_string EmptyString = NaN.
Proof. vm_compute. reflexivity. Qed.

Example parseFloat_negative_zero : parseFloat_string "-0" = neg_zero.
Proof. vm_compute. reflexivity. Qed.

Example Object_keys_indices_first :
  Object_keys [("b", 1); ("10", 2); ("2", 3); ("a", 4); ("02", 5); ("0", 6)]
  = ["0"; "2"; "10"; "b"; "a"; "02"].
Proof. vm_compute. reflexivity. Qed.

(** ** Objects built by assignment *)

Lemma In_set_own {V} (o : object V) k v k' v' :
  In (k', v') (set_own o k v) -> (k', v') = (k, v) \/ In (k', v') o.
Proof.
  induction o as [|[k0 v0] o IH]; simpl.
  - intros [H|[]]; left; now symmetry.
  - destruct (String.eqb k0 k).
    + intros [H|H]; [left; now symmetry | right; now right].
    + intros [H|H]; [right; now left |].
      destruct (IH H) as [H'|H']; [now left | right; now right].
Qed.

Lemma In_assign {V} (o : object V) k v k' v' :
  In (k', v') (assign o k v) -> (k', v') = (k, v) \/ In (k', v') o.
Proof.
  unfold assign. destruct (String.eqb k "__proto__").
  - now right.
  - apply In_set_own.
Qed.

(** Every entry of the object built by the [forEach] loop holds the
    statistics of its own column, taken from a non-empty list. *)
Lemma In_fold_profile_column rows cols acc col st :
  In (col, st) (fold_left (profile_column rows) cols acc) ->
  In (col, st) acc
  \/ (st = stats_of (column_numbers rows col)
      /\ column_numbers rows col <> []).
Proof.
  revert acc. induction cols as [|c cols IH]; simpl; intros acc H.
  - now left.
  - destruct (IH _ H) as [H'|H']; [|now right].
    unfold profile_column in H'.
    destruct (column_numbers rows c) as [|n nums] eqn:E; simpl in H'.
    + now left.
    + destruct (In_assign _ _ _ _ _ H') as [Heq|Hin]; [|now left].
      injection Heq as -> ->. right. rewrite E.
      split; [reflexivity | discriminate].
Qed.

Lemma In_numericCols rows col st :
  In (col, st) (numericCols (buildProfile rows)) ->
  st = stats_of (column_numbers rows col) /\ column_numbers rows col <> [].
Proof.
  destruct rows as [|sample rows]; simpl.
  - intros [].
  - intros H.
    destruct (In_fold_profile_column _ _ _ _ _ H) as [[]|H']. exact H'.
Qed.

(** C6: the row count of the profile is the number of rows, whatever the
    cells of the rows hold; every row adds one to it. *)
Theorem rowCount_length :
  (forall rows, rowCount (buildProfile rows) = List.length rows)
  /\ (forall pre r post,
        rowCount (buildProfile (pre ++ r :: post))
        = S (rowCount (buildProfile (pre ++ post)))).
Proof.
  assert (H : forall rows, rowCount (buildProfile rows) = List.length rows)
    by (intros [|sample rows]; reflexivity).
  split; [exact H |].
  intros pre r post. rewrite !H, !length_app. simpl. lia.
Qed.

(** C5: in the profile of any rows every column of [numericCols] has a
    count of at least one; when the row count is zero [numericCols] is
    empty; the profile of no rows is the empty profile. *)
Theorem profile_invariant :
  forall rows,
    (forall col st, In (col, st) (numericCols (buildProfile rows)) ->
                    1 <= Stat.count st)
    /\ (rowCount (buildProfile rows) = 0 ->
        numericCols (buildProfile rows) = [])
    /\ buildProfile [] = {| rowCount := 0; numericCols := [] |}.
Proof.
  intros rows. split; [|split].
  - intros col st H. apply In_numericCols in H as [-> Hne].
    simpl. destruct (column_numbers rows col); [congruence | simpl; lia].
  - destruct rows; [reflexivity | discriminate].
  - reflexivity.
Qed.

Lemma profile_invariant_witness :
  In ("amt", scenario_stat) (numericCols (buildProfile scenario_rows))
  /\ 1 <= Stat.count scenario_stat.
Proof.
  assert (H : In ("amt", scenario_stat)
                 (numericCols (buildProfile scenario_rows)))
    by (vm_compute; left; reflexivity).
  split; [exact H |].
  exact (proj1 (profile_invariant scenario_rows) "amt" scenario_stat H).
Defined.

(** ** The order of Numbers *)

Ltac order_cases :=
  repeat match goal with
  | H : context [Pos.compare_cont Eq ?a ?b] |- _ =>
      change (Pos.compare_cont Eq a b) with (Pos.compare a b) in *
  | |- context [Pos.compare_cont Eq ?a ?b] =>
      change (Pos.compare_cont Eq a b) with (Pos.compare a b) in *
  | H : context [Z.compare ?a ?b] |- _ =>
      destruct (Z.compare_spec a b); simpl in H
  | |- context [Z.compare ?a ?b] =>
      destruct (Z.compare_spec a b); simpl
  | H : context [Pos.compare ?a ?b] |- _ =>
      destruct (Pos.compare_spec a b); simpl in H
  | |- context [Pos.compare ?a ?b] =>
      destruct (Pos.compare_spec a b); simpl
  end.

Lemma lt_irrefl a : lt a a = false.
Proof.
  unfold lt, SFltb.
  destruct a as [s|s| |s m e]; simpl; try destruct s; try reflexivity;
    rewrite Z.compare_refl; order_cases; try reflexivity; lia.
Qed.

Lemma lt_trans a b c : lt a b = true -> lt b c = true -> lt a c = true.
Proof.
  unfold lt, SFltb.
  destruct a as [sa|sa| |sa ma ea], b as [sb|sb| |sb mb eb],
           c as [sc|sc| |sc mc ec];
    simpl; try discriminate;
    try destruct sa; try destruct sb; try destruct sc; simpl;
    try discriminate; try reflexivity;
    intros H1 H2; order_cases;
    try discriminate; try reflexivity; try lia.
Qed.

Lemma lt_zero_r a s s' : lt a (S754_zero s) = lt a (S754_zero s').
Proof. destruct a as [sa|sa| |sa ma ea]; reflexivity. Qed.

Lemma lt_zero_l a s s' : lt (S754_zero s) a = lt (S754_zero s') a.
Proof. destruct a as [sa|sa| |sa ma ea]; reflexivity. Qed.

Lemma lt_Infinity a :
  lt a Infinity = false -> isNaN a = false -> a = Infinity.
Proof.
  destruct a as [sa|sa| |sa ma ea]; try destruct sa;
    unfold lt, SFltb; simpl; try discriminate; reflexivity.
Qed.

Lemma lt_neg_Infinity a :
  lt neg_Infinity a = false -> isNaN a = false -> a = neg_Infinity.
Proof.
  destruct a as [sa|sa| |sa ma ea]; try destruct sa;
    unfold lt, SFltb; simpl; try discriminate; reflexivity.
Qed.

(** ** Math.min and Math.max *)

Lemma min_step_cases lowest n :
  (min_step lowest n = n /\ lt n n = false
   /\ (forall x, lt x lowest = false -> lt x n = false))
  \/ (min_step lowest n = lowest /\ lt n lowest = false).
Proof.
  unfold min_step. destruct (lt n lowest) eqn:E.
  - left.
    assert (H : forall x, lt x lowest = false -> lt x n = false).
    { intros x Hx. destruct (lt x n) eqn:E'; [| reflexivity].
      now rewrite (lt_trans _ _ _ E' E) in Hx. }
    destruct n as [[|]| | |]; try destruct lowest as [[|]| | |];
      (split; [reflexivity | split; [apply lt_irrefl | exact H]]).
  - destruct n as [[|]| | |]; try destruct lowest as [[|]| | |];
      try (right; split; reflexivity).
    left. split; [reflexivity | split; [reflexivity |]].
    intros x Hx. now rewrite (lt_zero_r x true false).
Qed.

Lemma max_step_cases highest n :
  (max_step highest n = n /\ lt n n = false
   /\ (forall x, lt highest x = false -> lt n x = false))
  \/ (max_step highest n = highest /\ lt highest n = false).
Proof.
  unfold max_step. destruct (lt highest n) eqn:E.
  - left.
    assert (H : forall x, lt highest x = false -> lt n x = false).
    { intros x Hx. destruct (lt n x) eqn:E'; [| reflexivity].
      now rewrite (lt_trans _ _ _ E E') in Hx. }
    destruct n as [[|]| | |]; try destruct highest as [[|]| | |];
      (split; [reflexivity | split; [apply lt_irrefl | exact H]]).
  - destruct n as [[|]| | |]; try destruct highest as [[|]| | |];
      try (right; split; reflexivity).
    left. split; [reflexivity | split; [reflexivity |]].
    intros x Hx. now rewrite (lt_zero_l x false true).
Qed.

Lemma fold_min_below l : forall lowest x,
  lt x lowest = false -> lt x (fold_left min_step l lowest) = false.
Proof.
  induction l as [|n l IH]; simpl; intros lowest x Hx; [exact Hx |].
  apply IH.
  destruct (min_step_cases lowest n) as [[E [_ H]]|[E _]]; rewrite E; auto.
Qed.

Lemma fold_min_lower l : forall lowest x,
  In x l -> lt x (fold_left min_step l lowest) = false.
Proof.
  induction l as [|n l IH]; simpl; intros lowest x Hx; [destruct Hx |].
  destruct Hx as [<-|Hx]; [| now apply IH].
  apply fold_min_below.
  destruct (min_step_cases lowest n) as [[E [H _]]|[E H]]; rewrite E; exact H.
Qed.

Lemma fold_min_member l : forall lowest,
  fold_left min_step l lowest = lowest \/ In (fold_left min_step l lowest) l.
Proof.
  induction l as [|n l IH]; simpl; intros lowest; [now left |].
  destruct (IH (min_step lowest n)) as [H|H]; [| now right; right].
  rewrite H.
  destruct (min_step_cases lowest n) as [[E _]|[E _]]; rewrite E;
    [right; now left | now left].
Qed.

Lemma fold_max_above l : forall highest x,
  lt highest x = false -> lt (fold_left max_step l highest) x = false.
Proof.
  induction l as [|n l IH]; simpl; intros highest x Hx; [exact Hx |].
  apply IH.
  destruct (max_step_cases highest n) as [[E [_ H]]|[E _]]; rewrite E; auto.
Qed.

Lemma fold_max_upper l : forall highest x,
  In x l -> lt (fold_left max_step l highest) x = false.
Proof.
  induction l as [|n l IH]; simpl; intros highest x Hx; [destruct Hx |].
  destruct Hx as [<-|Hx]; [| now apply IH].
  apply fold_max_above.
  destruct (max_step_cases highest n) as [[E [H _]]|[E H]]; rewrite E; exact H.
Qed.

Lemma fold_max_member l : forall highest,
  fold_left max_step l highest = highest
  \/ In (fold_left max_step l highest) l.
Proof.
  induction l as [|n l IH]; simpl; intros highest; [now left |].
  destruct (IH (max_step highest n)) as [H|H]; [| now right; right].
  rewrite H.
  destruct (max_step_cases highest n) as [[E _]|[E _]]; rewrite E;
    [right; now left | now left].
Qed.

Lemma existsb_isNaN_false l :
  (forall x, In x l -> isNaN x = false) -> existsb isNaN l = false.
Proof.
  induction l as [|n l IH]; simpl; intros H; [reflexivity |].
  rewrite (H n (or_introl eq_refl)). apply IH. intros x Hx. apply H. now right.
Qed.

(** Of a non-empty list without NaN, [Math.min] is a member below which
    no member lies. *)
Lemma Math_min_spec l :
  l <> [] -> (forall x, In x l -> isNaN x = false) ->
  In (Math_min l) l /\ (forall x, In x l -> lt x (Math_min l) = false).
Proof.
  intros Hne Hnan. unfold Math_min. rewrite (existsb_isNaN_false _ Hnan).
  split; [| intros x Hx; now apply fold_min_lower].
  destruct (fold_min_member l Infinity) as [H|H]; [| exact H].
  destruct l as [|n l]; [congruence |].
  assert (Hn : In n (n :: l)) by now left.
  pose proof (fold_min_lower (n :: l) Infinity n Hn) as Hlt.
  rewrite H in *. rewrite <- (lt_Infinity n Hlt (Hnan n Hn)). exact Hn.
Qed.

Lemma Math_max_spec l :
  l <> [] -> (forall x, In x l -> isNaN x = false) ->
  In (Math_max l) l /\ (forall x, In x l -> lt (Math_max l) x = false).
Proof.
  intros Hne Hnan. unfold Math_max. rewrite (existsb_isNaN_false _ Hnan).
  split; [| intros x Hx; now apply fold_max_upper].
  destruct (fold_max_member l neg_Infinity) as [H|H]; [| exact H].
  destruct l as [|n l]; [congruence |].
  assert (Hn : In n (n :: l)) by now left.
  pose proof (fold_max_upper (n :: l) neg_Infinity n Hn) as Hlt.
  rewrite H in *. rewrite <- (lt_neg_Infinity n Hlt (Hnan n Hn)). exact Hn.
Qed.

Lemma column_numbers_not_NaN rows col x :
  In x (column_numbers rows col) -> isNaN x = false.
Proof.
  unfold column_numbers. intros H. apply filter_In in H as [_ H].
  now apply negb_true_iff in H.
Qed.

Lemma column_numbers_length rows col :
  List.length (column_numbers rows col)
  = List.length
      (filter (fun r => negb (isNaN (parseFloat (prop r col)))) rows).
Proof.
  unfold column_numbers. induction rows as [|r rows IH]; simpl; [reflexivity |].
  destruct (isNaN (parseFloat (prop r col))); simpl; now rewrite IH.
Qed.

(** ** The statistics of a column *)

(** C1: the profile of the scenario rows is the one expected; and for
    every column of [numericCols], [count] is the number of values that
    parsed to a number, [sum] their sum from left to right, [avg] is
    [sum / count], and [min] and [max] are parsed values that bound the
    parsed values from below and from above. *)
Theorem profile_statistics :
  buildProfile scenario_rows
  = {| rowCount := 3; numericCols := [("amt", scenario_stat)] |}
  /\ forall rows col st,
      In (col, st) (numericCols (buildProfile rows)) ->
      let nums := column_numbers rows col in
      Stat.count st = List.length nums
      /\ Stat.count st
         = List.length
             (filter (fun r => negb (isNaN (parseFloat (prop r col)))) rows)
      /\ Stat.sum st = fold_left add nums pos_zero
      /\ Stat.avg st = div (Stat.sum st) (of_nat (Stat.count st))
      /\ (In (Stat.min st) nums
          /\ forall x, In x nums -> lt x (Stat.min st) = false)
      /\ (In (Stat.max st) nums
          /\ forall x, In x nums -> lt (Stat.max st) x = false).
Proof.
  split; [vm_compute; reflexivity |].
  intros rows col st H nums.
  apply In_numericCols in H as [-> Hne]. fold nums in Hne |- *.
  assert (Hnan : forall x, In x nums -> isNaN x = false)
    by (intros x; apply column_numbers_not_NaN).
  repeat split; try reflexivity.
  - apply column_numbers_length.
  - now apply Math_min_spec.
  - now apply Math_min_spec.
  - now apply Math_max_spec.
  - now apply Math_max_spec.
Qed.

Lemma profile_statistics_witness :
  In ("amt", scenario_stat) (numericCols (buildProfile scenario_rows))
  /\ Stat.count scenario_stat
     = List.length (column_numbers scenario_rows "amt")
  /\ Stat.avg scenario_stat
     = div (Stat.sum scenario_stat) (of_nat (Stat.count scenario_stat)).
Proof.
  assert (H : In ("amt", scenario_stat)
                 (numericCols (buildProfile scenario_rows)))
    by (vm_compute; left; reflexivity).
  split; [exact H |].
  destruct (proj2 profile_statistics scenario_rows "amt" scenario_stat H)
    as (H1 & _ & _ & H4 & _).
  split; [exact H1 | exact H4].
Defined.

(** ** Rounding gives a Number *)

Lemma shr_1_nonneg mrs : (0 <= shr_m mrs)%Z -> (0 <= shr_m (shr_1 mrs))%Z.
Proof.
  destruct mrs as [m r s]. simpl.
  destruct m as [|[p|p|]|p]; simpl; lia.
Qed.

Lemma iter_shr_1_nonneg p : forall mrs,
  (0 <= shr_m mrs)%Z -> (0 <= shr_m (iter_pos shr_1 p mrs))%Z.
Proof.
  induction p as [p IH|p IH|]; simpl; intros mrs H.
  - apply IH, IH, shr_1_nonneg, H.
  - apply IH, IH, H.
  - apply shr_1_nonneg, H.
Qed.

Lemma shr_fexp_nonneg m e l :
  (0 <= m)%Z -> (0 <= shr_m (fst (shr_fexp prec emax m e l)))%Z.
Proof.
  intros H. unfold shr_fexp, shr.
  assert (H0 : (0 <= shr_m (shr_record_of_loc m l))%Z)
    by (destruct l as [|[| |]]; exact H).
  destruct (fexp prec emax (Zdigits2 m + e) - e)%Z; simpl; try exact H0.
  now apply iter_shr_1_nonneg.
Qed.

Lemma round_nearest_even_nonneg m l :
  (0 <= m)%Z -> (0 <= round_nearest_even m l)%Z.
Proof.
  intros H. destruct l as [|[| |]]; simpl; try lia.
  destruct (Z.even m); lia.
Qed.

Lemma binary_round_aux_not_NaN sx mx ex lx :
  (0 <= mx)%Z -> isNaN (binary_round_aux prec emax sx mx ex lx) = false.
Proof.
  intros H. unfold binary_round_aux.
  pose proof (shr_fexp_nonneg mx ex lx H) as H1.
  destruct (shr_fexp prec emax mx ex lx) as [mrs' e'] eqn:E1. simpl in H1.
  pose proof (shr_fexp_nonneg _ e' loc_Exact
                (round_nearest_even_nonneg _ (loc_of_shr_record mrs') H1))
    as H2.
  destruct (shr_fexp prec emax
              (round_nearest_even (shr_m mrs') (loc_of_shr_record mrs'))
              e' loc_Exact) as [mrs'' e''] eqn:E2.
  simpl in H2.
  destruct (shr_m mrs'') as [|p|p]; try reflexivity; [| lia].
  destruct (e'' <=? emax - prec)%Z; reflexivity.
Qed.

Lemma binary_normalize_not_NaN m e s :
  isNaN (binary_normalize prec emax m e s) = false.
Proof.
  unfold binary_normalize, binary_round.
  destruct m as [|p|p]; try reflexivity;
    destruct (shl_align p e _) as [mz ez];
    apply binary_round_aux_not_NaN; lia.
Qed.

Lemma round_decimal_not_NaN neg m e : isNaN (round_decimal neg m e) = false.
Proof.
  unfold round_decimal.
  destruct (m =? 0)%Z; [reflexivity |].
  destruct (0 <=? e)%Z; apply binary_normalize_not_NaN.
Qed.

(** ** Reading a literal followed by other text *)

Lemma append_assoc_s (a b c : string) :
  ((a ++ b) ++ c = a ++ (b ++ c))%string.
Proof. induction a as [|x a IH]; simpl; [reflexivity | now rewrite IH]. Qed.

Lemma append_empty_r (a : string) : (a ++ EmptyString)%string = a.
Proof. induction a as [|x a IH]; simpl; [reflexivity | now rewrite IH]. Qed.

Lemma span_digits_app ds t :
  all_digits ds = true -> no_leading_digit t = true ->
  span_digits (ds ++ t) = (ds, t).
Proof.
  intros Hd Ht.
  induction ds as [|c ds IH];
    cbn [span_digits append all_digits no_leading_digit] in *.
  - destruct t as [|c t]; [reflexivity |].
    cbn [span_digits no_leading_digit] in *.
    apply negb_true_iff in Ht. now rewrite Ht.
  - apply andb_true_iff in Hd as [Hc Hd]. now rewrite Hc, (IH Hd).
Qed.

Lemma no_digits_leading t : no_digits t = true -> no_leading_digit t = true.
Proof.
  destruct t as [|c t]; cbn [no_digits no_leading_digit]; [reflexivity |].
  intros H. now apply andb_true_iff in H as [H _].
Qed.

Lemma span_digits_no_digits t :
  no_digits t = true -> span_digits t = (EmptyString, t).
Proof.
  intros H. apply no_digits_leading in H.
  exact (span_digits_app EmptyString t eq_refl H).
Qed.

Lemma no_digits_tail c t : no_digits (String c t) = true -> no_digits t = true.
Proof.
  cbn [no_digits]. intros H. now apply andb_true_iff in H as [_ H].
Qed.

Lemma span_sign_no_digits t :
  no_digits t = true -> no_digits (snd (span_sign t)) = true.
Proof.
  intros H. unfold span_sign.
  destruct t as [|c t]; [reflexivity |].
  pose proof (no_digits_tail _ _ H) as H'.
  destruct c as [[] [] [] [] [] [] [] []]; simpl; assumption.
Qed.

Lemma scan_exponent_no_digits t : no_digits t = true -> scan_exponent t = 0%Z.
Proof.
  intros H. unfold scan_exponent.
  destruct t as [|c t]; [reflexivity |].
  destruct (Ascii.eqb c "e" || Ascii.eqb c "E"); [| reflexivity].
  pose proof (span_sign_no_digits t (no_digits_tail _ _ H)) as H'.
  destruct (span_sign t) as [neg r1]. simpl in H'.
  now rewrite (span_digits_no_digits _ H').
Qed.

Lemma digit_not_sign c r :
  is_digit c = true -> span_sign (String c r) = (false, String c r).
Proof.
  destruct c as [[] [] [] [] [] [] [] []]; simpl; try discriminate; reflexivity.
Qed.

Lemma span_sign_text sg c r :
  is_digit c = true \/ c = "."%char ->
  span_sign (sign_text sg ++ String c r) = (is_minus sg, String c r).
Proof.
  intros H. destruct sg; simpl; try reflexivity.
  destruct H as [H| ->]; [now apply digit_not_sign | reflexivity].
Qed.

Lemma trim_start_literal sg c r :
  is_digit c = true \/ c = "."%char ->
  trim_start (sign_text sg ++ String c r) = (sign_text sg ++ String c r)%string.
Proof.
  intros H. destruct sg; simpl; try reflexivity.
  destruct H as [H| ->]; [| reflexivity].
  destruct c as [[] [] [] [] [] [] [] []]; simpl in *; try discriminate;
    reflexivity.
Qed.

Lemma not_Infinity c r :
  is_digit c = true \/ c = "."%char ->
  starts_with "Infinity" (String c r) = false.
Proof.
  intros [H| ->]; [| reflexivity].
  destruct c as [[] [] [] [] [] [] [] []]; simpl in *; try discriminate;
    reflexivity.
Qed.

Lemma digits_value_app ds1 : forall acc ds2,
  digits_value acc (ds1 ++ ds2) = digits_value (digits_value acc ds1) ds2.
Proof.
  induction ds1 as [|c ds1 IH]; simpl; intros acc ds2; [reflexivity |].
  apply IH.
Qed.

Lemma exponent_letter_not_digit c :
  Ascii.eqb c "e" || Ascii.eqb c "E" = true -> is_digit c = false.
Proof.
  intros H. apply orb_true_iff in H as [H|H];
    apply Ascii.eqb_eq in H; subst; reflexivity.
Qed.

Lemma scan_exponent_text (c : ascii) (sg : sign) (ds t : string) :
  Ascii.eqb c "e" || Ascii.eqb c "E" = true ->
  all_digits ds = true -> ds <> EmptyString -> no_digits t = true ->
  scan_exponent (exponent_text (Some (c, sg, ds)) ++ t)%string
  = if is_minus sg then (- digits_value 0 ds)%Z else digits_value 0 ds.
Proof.
  intros Hc Hd Hne Ht.
  cbn [exponent_text append scan_exponent]. rewrite Hc.
  destruct ds as [|d ds]; [congruence |].
  rewrite append_assoc_s.
  pose proof Hd as Hd'. cbn [all_digits] in Hd'.
  apply andb_true_iff in Hd' as [Hd0 _].
  cbn [append]. rewrite span_sign_text by now left.
  change (String d (ds ++ t)) with (String d ds ++ t)%string.
  rewrite (span_digits_app _ _ Hd (no_digits_leading _ Ht)).
  reflexivity.
Qed.

Lemma exponent_letter x :
  exponent_well_formed x = true ->
  match x with
  | Some (c, _, _) => Ascii.eqb c "e" || Ascii.eqb c "E" = true
  | None => True
  end.
Proof.
  destruct x as [[[c sg] ds]|]; [| trivial]. cbn [exponent_well_formed].
  intros H. apply andb_true_iff in H as [H _].
  now apply andb_true_iff in H as [H _].
Qed.

Lemma exponent_text_leading x t :
  exponent_well_formed x = true -> no_digits t = true ->
  no_leading_digit (exponent_text x ++ t)%string = true.
Proof.
  intros Hx Ht. apply exponent_letter in Hx.
  destruct x as [[[c sg] ds]|]; cbn [exponent_text append].
  - cbn [no_leading_digit]. now rewrite (exponent_letter_not_digit c Hx).
  - now apply no_digits_leading.
Qed.

Lemma scan_exponent_part x t :
  exponent_well_formed x = true -> no_digits t = true ->
  scan_exponent (exponent_text x ++ t)%string
  = match x with
    | Some (_, s, ds) =>
        if is_minus s then (- digits_value 0 ds)%Z else digits_value 0 ds
    | None => 0%Z
    end.
Proof.
  intros Hx Ht. destruct x as [[[c sg] ds]|].
  - cbn [exponent_well_formed] in Hx.
    apply andb_true_iff in Hx as [Hx Hne]. apply andb_true_iff in Hx as [Hc Hd].
    apply negb_true_iff, String.eqb_neq in Hne.
    now apply scan_exponent_text.
  - now apply scan_exponent_no_digits.
Qed.

(** The scanner reads exactly the parts of a well-formed literal, whatever
    text without digits follows it. *)
Lemma scan_decimal_literal d t :
  well_formed d = true -> no_digits t = true ->
  scan_decimal
    (int_digits d ++ fraction_text (fraction d)
     ++ exponent_text (exponent d) ++ t)%string
  = Some (digits_value 0 (int_digits d ++ fraction_digits d),
          (exponent_value d
           - Z.of_nat (String.length (fraction_digits d)))%Z).
Proof.
  destruct d as [sg ip fr ex]. unfold well_formed, fraction_digits,
    exponent_value. cbn [lit_sign int_digits fraction exponent].
  intros Hwf Ht.
  apply andb_true_iff in Hwf as [Hwf Hex].
  apply andb_true_iff in Hwf as [Hwf Hne].
  apply andb_true_iff in Hwf as [Hip Hfr].
  pose proof (exponent_text_leading ex t Hex Ht) as Hlead.
  pose proof (scan_exponent_part ex t Hex Ht) as Hscan.
  rewrite digits_value_app.
  unfold scan_decimal.
  destruct fr as [f|]; cbn [fraction_text append].
  - rewrite (span_digits_app ip
               (String "." (f ++ exponent_text ex ++ t)) Hip eq_refl).
    rewrite (span_digits_app f _ Hfr Hlead), Hscan.
    destruct ip as [|c ip]; [| reflexivity].
    destruct f as [|c f]; [discriminate Hne | reflexivity].
  - rewrite (span_digits_app ip _ Hip Hlead).
    destruct ip as [|c0 ip]; [discriminate Hne |].
    destruct ex as [[[c s] ds]|].
    + pose proof (exponent_letter _ Hex) as Hc. cbn beta iota in Hc.
      cbv zeta in Hscan.
      assert (Hnd : forall r,
                 match String c r with
                 | String "." r' => span_digits r'
                 | _ => (EmptyString, String c r)
                 end = (EmptyString, String c r)).
      { intros r. apply orb_true_iff in Hc as [Hc|Hc];
          apply Ascii.eqb_eq in Hc; subst; reflexivity. }
      cbn [exponent_text append] in *. rewrite Hnd, Hscan. reflexivity.
    + cbn [exponent_text append] in *.
      destruct t as [|c t]; [reflexivity |].
      pose proof (no_digits_tail _ _ Ht) as Ht'.
      destruct (Ascii.eqb_spec c ".") as [->|Hc].
      * rewrite (span_digits_no_digits _ Ht').
        now rewrite (scan_exponent_no_digits _ Ht').
      * assert (Hnd : match String c t with
                      | String "." r' => span_digits r'
                      | _ => (EmptyString, String c t)
                      end = (EmptyString, String c t)).
        { destruct c as [[] [] [] [] [] [] [] []]; try reflexivity.
          now contradiction Hc. }
        rewrite Hnd, Hscan. reflexivity.
Qed.

Lemma literal_body_head d t :
  well_formed d = true ->
  exists c r,
    (int_digits d ++ fraction_text (fraction d)
     ++ exponent_text (exponent d) ++ t)%string = String c r
    /\ (is_digit c = true \/ c = "."%char).
Proof.
  destruct d as [sg ip fr ex]. unfold well_formed, fraction_digits.
  cbn [lit_sign int_digits fraction exponent].
  intros Hwf.
  apply andb_true_iff in Hwf as [Hwf _].
  apply andb_true_iff in Hwf as [Hwf Hne].
  apply andb_true_iff in Hwf as [Hip _].
  destruct ip as [|c ip].
  - destruct fr as [f|]; [| discriminate Hne].
    cbn [fraction_text append]. eexists _, _. split; [reflexivity | now right].
  - cbn [all_digits] in Hip. apply andb_true_iff in Hip as [Hc _].
    cbn [append]. eexists _, _. split; [reflexivity | now left].
Qed.

(** [parseFloat] reads a well-formed literal as its Number and ignores the
    text without digits that follows. *)
Lemma parseFloat_literal d t :
  well_formed d = true -> no_digits t = true ->
  parseFloat_string (literal_text d ++ t)%string = literal_number d.
Proof.
  intros Hwf Ht. unfold parseFloat_string, literal_text, literal_number.
  rewrite !append_assoc_s.
  pose proof (scan_decimal_literal d t Hwf Ht) as Hscan.
  destruct (literal_body_head d t Hwf) as (c & r & Hbody & Hc).
  rewrite Hbody in *.
  rewrite trim_start_literal, span_sign_text, not_Infinity, Hscan by exact Hc.
  reflexivity.
Qed.

(** ** Which values enter the statistics *)

Lemma column_numbers_app rows1 rows2 col :
  column_numbers (rows1 ++ rows2) col
  = column_numbers rows1 col ++ column_numbers rows2 col.
Proof. unfold column_numbers. now rewrite map_app, filter_app. Qed.

Lemma column_numbers_cons r rows col :
  column_numbers (r :: rows) col
  = (if isNaN (parseFloat (prop r col)) then []
     else [parseFloat (prop r col)]) ++ column_numbers rows col.
Proof.
  unfold column_numbers. simpl.
  now destruct (isNaN (parseFloat (prop r col))).
Qed.

Lemma NaN_discarded v : isNaN (parseFloat v) = true -> discarded v.
Proof.
  intros H pre r post col Hv.
  rewrite !column_numbers_app, column_numbers_cons, Hv, H. reflexivity.
Qed.

Lemma not_NaN_kept v : isNaN (parseFloat v) = false -> kept_as v (parseFloat v).
Proof.
  intros H pre r post col Hv.
  rewrite !column_numbers_app, column_numbers_cons, Hv, H. reflexivity.
Qed.

Lemma kept_not_discarded v n : kept_as v n -> ~ discarded v.
Proof.
  intros Hk Hd.
  specialize (Hk [] [("c", v)] [] "c" eq_refl).
  specialize (Hd [] [("c", v)] [] "c" eq_refl).
  rewrite Hk in Hd. discriminate Hd.
Qed.

(** C2, as the code has it: every entry of [numericCols] holds the
    statistics of the numbers collected for its column; a value that
    parses to NaN is discarded from them; a value that parses to an
    infinity, as the text [Infinity] does, is not discarded but kept as
    that infinity. *)
Theorem NaN_discarded_infinity_kept :
  (forall rows col st,
      In (col, st) (numericCols (buildProfile rows)) ->
      st = stats_of (column_numbers rows col))
  /\ (forall v, isNaN (parseFloat v) = true -> discarded v)
  /\ (forall v, parseFloat v = Infinity \/ parseFloat v = neg_Infinity ->
                kept_as v (parseFloat v) /\ ~ discarded v)
  /\ parseFloat (VString "Infinity") = Infinity
  /\ parseFloat (VString "-Infinity") = neg_Infinity
  /\ parseFloat (VString "NaN") = NaN.
Proof.
  split; [| split; [| split; [| repeat split]]].
  - intros rows col st H. now apply In_numericCols in H.
  - exact NaN_discarded.
  - intros v H.
    assert (Hk : kept_as v (parseFloat v))
      by (apply not_NaN_kept; destruct H as [-> | ->]; reflexivity).
    split; [exact Hk | exact (kept_not_discarded _ _ Hk)].
Qed.

Lemma NaN_discarded_infinity_kept_witness :
  discarded (VString "x")
  /\ kept_as (VString "Infinity") (parseFloat (VString "Infinity"))
  /\ scenario_stat = stats_of (column_numbers scenario_rows "amt").
Proof.
  destruct NaN_discarded_infinity_kept as (H1 & H2 & H3 & _).
  split; [| split].
  - apply H2. vm_compute. reflexivity.
  - apply H3. left. vm_compute. reflexivity.
  - apply H1. vm_compute. left. reflexivity.
Defined.

(** The text [Infinity] parses to infinity and is not discarded: the
    column is profiled with a count of one. *)
Lemma infinity_text_is_counted :
  parseFloat (VString "Infinity") = Infinity
  /\ ~ discarded (VString "Infinity")
  /\ buildProfile infinity_rows
     = {| rowCount := 1; numericCols := [("amt", infinity_stat)] |}.
Proof.
  split; [reflexivity | split; [| vm_compute; reflexivity]].
  apply (kept_not_discarded _ Infinity), not_NaN_kept. reflexivity.
Qed.



(** ** Running computations *)

Lemma run_bind {A B} env (p : io A) (f : A -> io B) : forall history,
  run env history (bind p f)
  = match run env history p with
    | (h, inr a) => run env h (f a)
    | (h, inl e) => (h, inl e)
    end.
Proof.
  induction p as [a|e|R c k IH]; intros history; simpl; try reflexivity.
  apply IH.
Qed.

Lemma run_await {R} env (c : call R) history :
  run env history (await c)
  = (history ++ [Event c (env history R c)], env history R c).
Proof. unfold await. simpl. now destruct (env history R c). Qed.

Lemma run_try_rethrow {A} env (p : io A) : forall history,
  run env history (try_catch p (fun err => Throw err)) = run env history p.
Proof.
  induction p as [a|e|R c k IH]; intros history; simpl; try reflexivity.
  apply IH.
Qed.

Lemma propagates_await {R} (c : call R) : propagates (await c).
Proof. constructor; [reflexivity | intros v; constructor]. Qed.

Lemma propagates_bind {A B} (p : io A) (f : A -> io B) :
  propagates p -> (forall a, propagates (f a)) -> propagates (bind p f).
Proof.
  intros Hp Hf. induction Hp as [a|e|R c k Hk Hv IH]; simpl.
  - apply Hf.
  - constructor.
  - constructor; [intros e; now rewrite Hk | exact IH].
Qed.

Lemma propagates_try_rethrow {A} (p : io A) :
  propagates p -> propagates (try_catch p (fun err => Throw err)).
Proof.
  intros Hp. induction Hp as [a|e|R c k Hk Hv IH]; simpl.
  - constructor.
  - constructor.
  - constructor; [intros e; now rewrite Hk | exact IH].
Qed.

Lemma propagates_for_of {A} (l : list A) body :
  (forall x, propagates (body x)) -> propagates (for_of l body).
Proof.
  intros H. induction l as [|x l IH]; simpl; [constructor |].
  apply propagates_bind; [apply H | intros _; exact IH].
Qed.

Lemma no_failure_split (h : list event) pre ev post e :
  (forall x, In x h -> failure x = None) ->
  h = pre ++ ev :: post -> failure ev = Some e -> False.
Proof.
  intros Hh -> He.
  rewrite (Hh ev) in He; [discriminate |].
  apply in_or_app. right. now left.
Qed.

Lemma last_failure_split (h : list event) x pre ev post e :
  (forall y, In y h -> failure y = None) ->
  h ++ [x] = pre ++ ev :: post -> failure ev = Some e ->
  post = [] /\ x = ev.
Proof.
  intros Hh Heq He.
  destruct post as [|y post].
  - apply app_inj_tail in Heq as [_ Heq]. now split.
  - exfalso.
    assert (Hin : In ev h).
    { destruct (@exists_last _ (y :: post)) as (l' & a & Hl);
        [discriminate |].
      rewrite Hl in Heq.
      change (pre ++ ev :: l' ++ [a]) with (pre ++ (ev :: l') ++ [a]) in Heq.
      rewrite app_assoc in Heq.
      apply app_inj_tail in Heq as [-> _].
      apply in_or_app. right. now left. }
    rewrite (Hh ev Hin) in He. discriminate.
Qed.

(** A computation that propagates rejections stops at the first rejected
    call, with the error of that call. *)
Lemma propagates_aborts {A} env (p : io A) :
  propagates p ->
  forall history,
    (forall x, In x history -> failure x = None) ->
    aborts_on_failure (fst (run env history p)) (snd (run env history p)).
Proof.
  intros Hp. induction Hp as [a|e|R c k Hk Hv IH]; intros history Hh.
  - simpl. intros pre ev post e Heq He.
    destruct (no_failure_split _ _ _ _ _ Hh Heq He).
  - simpl. intros pre ev post e' Heq He.
    destruct (no_failure_split _ _ _ _ _ Hh Heq He).
  - simpl. destruct (env history R c) as [e|v] eqn:E.
    + rewrite Hk. simpl. intros pre ev post e' Heq He.
      destruct (last_failure_split _ _ _ _ _ _ Hh Heq He) as [-> <-].
      simpl in He. injection He as ->. now split.
    + apply IH. intros x Hx. apply in_app_or in Hx as [Hx|[<-|[]]].
      * now apply Hh.
      * reflexivity.
Qed.

(** ** The order of the columns *)

Lemma In_insert_by_index {V} i (p q : string * V) l :
  In q (insert_by_index i p l) -> q = p \/ In q l.
Proof.
  induction l as [|x l IH]; simpl.
  - intros [<-|[]]. now left.
  - destruct (array_index (fst x)) as [j|].
    + destruct (i <=? j)%Z.
      * intros [<-|H]; [now left | now right].
      * intros [<-|H]; [right; now left |].
        destruct (IH H) as [->|H']; [now left | right; now right].
    + intros [<-|H]; [now left | now right].
Qed.

Lemma In_indexed_properties {V} (o : object V) q :
  In q (indexed_properties o) ->
  In q o /\ exists j, array_index (fst q) = Some j.
Proof.
  induction o as [|p o IH]; simpl; [intros [] |].
  destruct (array_index (fst p)) as [i|] eqn:E.
  - intros H. apply In_insert_by_index in H as [->|H].
    + split; [now left | eauto].
    + destruct (IH H) as [H1 H2]. split; [now right | exact H2].
  - intros H. destruct (IH H) as [H1 H2]. split; [now right | exact H2].
Qed.

Lemma insert_by_index_first {V} i (p : string * V) l :
  array_index (fst p) = Some i ->
  Forall (fun q => precedes (fst p) (fst q)) l ->
  insert_by_index i p l = p :: l.
Proof.
  intros Hp Hl. destruct l as [|q l]; [reflexivity |].
  apply Forall_inv in Hl. unfold precedes in Hl. rewrite Hp in Hl.
  simpl. destruct (array_index (fst q)) as [j|]; [| reflexivity].
  apply Z.leb_le in Hl. now rewrite Hl.
Qed.

Lemma no_index_properties {V} (o : object V) :
  Forall (fun q => array_index (fst q) = None) o ->
  indexed_properties o = []
  /\ filter (fun p => negb (is_array_index (fst p))) o = o.
Proof.
  induction 1 as [|q o Hq Ho [IH1 IH2]]; [now split |].
  cbn [indexed_properties fold_right filter]. fold (indexed_properties o).
  unfold is_array_index at 1. rewrite Hq. cbn [negb].
  split; [exact IH1 | now rewrite IH2].
Qed.

(** An object whose keys were created in the order of enumeration is
    enumerated in the order of creation. *)
Lemma own_property_order_sorted {V} (o : object V) :
  enumeration_order (map fst o) -> own_property_order o = o.
Proof.
  unfold enumeration_order, own_property_order.
  induction o as [|p o IH]; [reflexivity |].
  cbn [map]. intros H. apply StronglySorted_inv in H as [Hs Hp].
  specialize (IH Hs). rewrite Forall_map in Hp.
  cbn [indexed_properties fold_right filter].
  fold (indexed_properties o). unfold is_array_index at 1.
  destruct (array_index (fst p)) as [i|] eqn:E; cbn [negb].
  - rewrite insert_by_index_first; [cbn [app]; now rewrite IH | exact E |].
    apply Forall_forall. intros q Hq.
    apply In_indexed_properties in Hq as [Hq _].
    exact (proj1 (Forall_forall _ _) Hp q Hq).
  - assert (Hn : Forall (fun q => array_index (fst q) = None) o).
    { apply Forall_forall. intros q Hq.
      pose proof (proj1 (Forall_forall _ _) Hp q Hq) as H.
      unfold precedes in H. rewrite E in H.
      now destruct (array_index (fst q)). }
    destruct (no_index_properties o Hn) as [-> ->]. reflexivity.
Qed.

Lemma insert_by_index_sorted {V} i (p : string * V) l :
  array_index (fst p) = Some i ->
  Forall (fun q => exists j, array_index (fst q) = Some j) l ->
  enumeration_order (map fst l) ->
  enumeration_order (map fst (insert_by_index i p l)).
Proof.
  unfold enumeration_order. intros Hp Hl Hs.
  induction l as [|q l IH]; cbn [insert_by_index map].
  - constructor; constructor.
  - pose proof (Forall_inv Hl) as (j & Hq).
    apply Forall_inv_tail in Hl.
    cbn [map] in Hs. apply StronglySorted_inv in Hs as [Hs Hql].
    rewrite Hq. destruct (i <=? j)%Z eqn:Hij; cbn [map].
    + apply Z.leb_le in Hij. constructor.
      * constructor; assumption.
      * constructor.
        { unfold precedes. now rewrite Hp, Hq. }
        { rewrite Forall_map in *. apply Forall_forall. intros x Hx.
          pose proof (proj1 (Forall_forall _ _) Hql x Hx) as H1.
          pose proof (proj1 (Forall_forall _ _) Hl x Hx) as (jx & H2).
          unfold precedes in *. rewrite Hp. rewrite Hq, H2 in H1.
          rewrite H2. lia. }
    + apply Z.leb_gt in Hij. constructor; [now apply IH |].
      rewrite Forall_map in *. apply Forall_forall. intros x Hx.
      apply In_insert_by_index in Hx as [->|Hx].
      * unfold precedes. rewrite Hq, Hp. lia.
      * exact (proj1 (Forall_forall _ _) Hql x Hx).
Qed.

Lemma indexed_properties_sorted {V} (o : object V) :
  enumeration_order (map fst (indexed_properties o)).
Proof.
  induction o as [|p o IH]; simpl; [constructor |].
  destruct (array_index (fst p)) as [i|] eqn:E; [| exact IH].
  apply insert_by_index_sorted; [exact E | | exact IH].
  apply Forall_forall. intros q Hq.
  now apply In_indexed_properties in Hq as [_ Hq].
Qed.

Lemma StronglySorted_app {A} (R : A -> A -> Prop) l1 l2 :
  StronglySorted R l1 -> StronglySorted R l2 ->
  (forall a b, In a l1 -> In b l2 -> R a b) ->
  StronglySorted R (l1 ++ l2).
Proof.
  intros H1 H2 H. induction l1 as [|a l1 IH]; [exact H2 |].
  apply StronglySorted_inv in H1 as [H1 Ha]. cbn [app]. constructor.
  - apply IH; [exact H1 |]. intros x y Hx Hy. apply H; [now right | exact Hy].
  - apply Forall_app. split; [exact Ha |].
    apply Forall_forall. intros b Hb. apply H; [now left | exact Hb].
Qed.

Lemma StronglySorted_remove {A} (R : A -> A -> Prop) l1 c l2 :
  StronglySorted R (l1 ++ c :: l2) -> StronglySorted R (l1 ++ l2).
Proof.
  induction l1 as [|a l1 IH]; cbn [app]; intros H;
    apply StronglySorted_inv in H as [H Ha].
  - exact H.
  - constructor; [now apply IH |].
    apply Forall_app in Ha as [Ha1 Ha2]. apply Forall_app.
    split; [exact Ha1 | now apply Forall_inv_tail in Ha2].
Qed.

(** [Object.keys] lists the keys in the order of enumeration. *)
Lemma Object_keys_sorted {V} (o : object V) :
  enumeration_order (Object_keys o).
Proof.
  unfold Object_keys, own_property_order. rewrite map_app.
  apply StronglySorted_app.
  - apply indexed_properties_sorted.
  - induction o as [|p o IH]; simpl; [constructor |].
    unfold is_array_index at 1.
    destruct (array_index (fst p)) as [i|] eqn:E; cbn [negb]; [exact IH |].
    cbn [map]. constructor; [exact IH |].
    rewrite Forall_map. apply Forall_forall. intros q Hq.
    apply filter_In in Hq as [_ Hq]. unfold is_array_index in Hq.
    unfold precedes. rewrite E. now destruct (array_index (fst q)).
  - intros a b Ha Hb.
    apply in_map_iff in Ha as (x & <- & Hx).
    apply in_map_iff in Hb as (y & <- & Hy).
    apply In_indexed_properties in Hx as [_ (i & Hi)].
    apply filter_In in Hy as [_ Hy]. unfold is_array_index in Hy.
    unfold precedes. rewrite Hi. now destruct (array_index (fst y)).
Qed.

Lemma set_own_keys {V} (o : object V) k v :
  map fst (set_own o k v) = map fst o
  \/ map fst (set_own o k v) = map fst o ++ [k].
Proof.
  induction o as [|[k' v'] o IH]; simpl; [now right |].
  destruct (String.eqb_spec k' k) as [->|Hk]; simpl; [now left |].
  destruct IH as [-> | ->]; [now left | now right].
Qed.

Lemma profile_column_keys rows acc col :
  map fst (profile_column rows acc col) = map fst acc
  \/ map fst (profile_column rows acc col) = map fst acc ++ [col].
Proof.
  unfold profile_column, assign.
  destruct (0 <? _)%nat; [| now left].
  destruct (String.eqb col "__proto__"); [now left | apply set_own_keys].
Qed.

Lemma fold_profile_column_sorted rows cols : forall acc,
  enumeration_order (map fst acc ++ cols) ->
  enumeration_order (map fst (fold_left (profile_column rows) cols acc)).
Proof.
  unfold enumeration_order.
  induction cols as [|c cols IH]; intros acc H; simpl.
  - now rewrite app_nil_r in H.
  - apply IH. destruct (profile_column_keys rows acc c) as [-> | ->].
    + exact (StronglySorted_remove _ _ _ _ H).
    + now rewrite <- app_assoc.
Qed.

(** The columns of a profile are enumerated in the order in which the
    loop created them. *)
Lemma numericCols_order rows :
  Object_entries (numericCols (buildProfile rows))
  = numericCols (buildProfile rows).
Proof.
  unfold Object_entries. apply own_property_order_sorted.
  destruct rows as [|sample rows]; simpl; [constructor |].
  apply fold_profile_column_sorted. apply Object_keys_sorted.
Qed.

Lemma insert_by_index_length {V} i (p : string * V) l :
  List.length (insert_by_index i p l) = S (List.length l).
Proof.
  induction l as [|q l IH]; simpl; [reflexivity |].
  destruct (array_index (fst q)) as [j|]; [| reflexivity].
  destruct (i <=? j)%Z; simpl; [reflexivity | now rewrite IH].
Qed.

Lemma own_property_order_length {V} (o : object V) :
  List.length (own_property_order o) = List.length o.
Proof.
  unfold own_property_order. rewrite length_app.
  induction o as [|p o IH]; [reflexivity |].
  cbn [indexed_properties fold_right filter]. fold (indexed_properties o).
  unfold is_array_index at 1.
  destruct (array_index (fst p)) as [i|]; cbn [negb].
  - rewrite insert_by_index_length. simpl. now rewrite IH.
  - cbn [List.length]. rewrite Nat.add_succ_r. now rewrite IH.
Qed.

(** ** The statistics table *)





(** ** Splitting a key *)

Lemma split_not_nil sep s : split sep s <> [].
Proof.
  destruct s as [|c s]; simpl; [discriminate |].
  destruct (Ascii.eqb c sep); [discriminate |].
  destruct (split sep s); discriminate.
Qed.

Lemma join_split sep s : join sep (split sep s) = s.
Proof.
  induction s as [|c s IH]; [reflexivity |].
  cbn [split]. destruct (Ascii.eqb_spec c sep) as [->|Hc].
  - pose proof (split_not_nil sep s) as Hne.
    destruct (split sep s) as [|p ps]; [congruence |].
    cbn [join append] in *. now rewrite IH.
  - destruct (split sep s) as [|p ps] eqn:E;
      [now destruct (split_not_nil sep s) |].
    destruct ps as [|q ps]; cbn [join append] in *; now rewrite IH.
Qed.

Lemma split_parts sep s p : In p (split sep s) -> occurs sep p = false.
Proof.
  revert p. induction s as [|c s IH]; intros p; cbn [split].
  - intros [<-|[]]. reflexivity.
  - destruct (Ascii.eqb_spec c sep) as [->|Hc].
    + intros [<-|H]; [reflexivity | now apply IH].
    + destruct (split sep s) as [|q qs].
      * intros [<-|[]]. cbn [occurs].
        now apply Ascii.eqb_neq in Hc as ->.
      * intros [<-|H]; [| apply IH; now right].
        cbn [occurs]. apply Ascii.eqb_neq in Hc as ->.
        apply IH. now left.
Qed.

Lemma join_hd sep parts :
  parts <> [] ->
  exists rest,
    join sep parts = (hd EmptyString parts ++ rest)%string
    /\ (rest = EmptyString \/ exists r, rest = String sep r).
Proof.
  destruct parts as [|p [|q ps]]; [congruence | |]; intros _.
  - exists EmptyString. cbn [join hd]. rewrite append_empty_r. auto.
  - exists (String sep (join sep (q :: ps))). cbn [join hd]. eauto.
Qed.

Lemma join_last sep parts :
  parts <> [] ->
  exists dir,
    join sep parts = (dir ++ last parts EmptyString)%string
    /\ (dir = EmptyString
        \/ exists d, dir = (d ++ String sep EmptyString)%string).
Proof.
  induction parts as [|p ps IH]; [congruence |]; intros _.
  destruct ps as [|q ps].
  - exists EmptyString. cbn [join last append]. auto.
  - destruct IH as (dir & Hj & Hd); [discriminate |].
    exists (p ++ String sep dir)%string.
    change (last (p :: q :: ps) EmptyString)
      with (last (q :: ps) EmptyString).
    change (join sep (p :: q :: ps))
      with (p ++ String sep (join sep (q :: ps)))%string.
    rewrite Hj, append_assoc_s. cbn [append]. split; [reflexivity |].
    right. destruct Hd as [->|(d & ->)].
    + exists p. reflexivity.
    + exists (p ++ String sep d)%string.
      rewrite append_assoc_s. reflexivity.
Qed.

Lemma last_In {A} (l : list A) d : l <> [] -> In (last l d) l.
Proof.
  induction l as [|x l IH]; [congruence |]; intros _.
  destruct l as [|y l]; [now left |].
  right. apply IH. discriminate.
Qed.

(** The base name is the part of the key after its last [/], up to the
    first [.] of that part. *)
Lemma baseName_spec key :
  exists dir rest,
    key = (dir ++ baseName key ++ rest)%string
    /\ (dir = EmptyString
        \/ exists d, dir = (d ++ String "/" EmptyString)%string)
    /\ occurs "/" (baseName key ++ rest) = false
    /\ occurs "." (baseName key) = false
    /\ (rest = EmptyString \/ exists r, rest = String "." r).
Proof.
  unfold baseName.
  destruct (join_last "/" (split "/" key) (split_not_nil _ _))
    as (dir & Hkey & Hdir).
  rewrite join_split in Hkey.
  set (file := last (split "/" key) EmptyString) in *.
  assert (Hfile : occurs "/" file = false)
    by (apply (split_parts "/" key), last_In, split_not_nil).
  destruct (join_hd "." (split "." file) (split_not_nil _ _))
    as (rest & Hf & Hrest).
  rewrite join_split in Hf.
  exists dir, rest. rewrite <- Hf. repeat split; try assumption.
  apply (split_parts "." file).
  destruct (split "." file) as [|p ps] eqn:E;
    [now destruct (split_not_nil "." file) | now left].
Qed.

Lemma In_firstn {A} n (l : list A) x : In x (firstn n l) -> In x l.
Proof.
  intros H. rewrite <- (firstn_skipn n l). apply in_or_app. now left.
Qed.

Lemma append_inj_l (a b c : string) : (a ++ b = a ++ c)%string -> b = c.
Proof.
  induction a as [|x a IH]; cbn [append]; intros H; [exact H |].
  injection H as H. now apply IH.
Qed.

Lemma outKey_inj key e1 e2 : outKey key e1 = outKey key e2 -> e1 = e2.
Proof.
  unfold outKey. intros H.
  apply append_inj_l in H. apply append_inj_l in H.
  now apply append_inj_l in H.
Qed.

(** ** The handler *)

Section HandlerProperties.

Variable decodeURIComponent : string -> exn + string.
Variable JSON_stringify_numericCols : object ColumnStat -> string.
Variable JSON_stringify_profile : DatasetProfile -> string.
Variable csvParser_parse : list csvRow -> string.
Variable OUTPUT_BUCKET : string.

Local Abbreviation the_pipeline :=
  (pipeline JSON_stringify_numericCols JSON_stringify_profile
     csvParser_parse OUTPUT_BUCKET).
Local Abbreviation the_handler :=
  (handler decodeURIComponent JSON_stringify_numericCols
     JSON_stringify_profile csvParser_parse OUTPUT_BUCKET).
Local Abbreviation writes := (writes csvParser_parse OUTPUT_BUCKET).
Local Abbreviation invocation :=
  (invocation decodeURIComponent JSON_stringify_numericCols
     JSON_stringify_profile csvParser_parse OUTPUT_BUCKET).

Lemma propagates_first_content choices : propagates (first_content choices).
Proof. destruct choices as [|[content|] choices]; constructor. Qed.

Lemma propagates_pipeline bucket key : propagates (the_pipeline bucket key).
Proof.
  unfold pipeline.
  apply propagates_bind; [apply propagates_await | intros body].
  apply propagates_bind.
  { destruct (endsWith key ".csv"); [apply propagates_await |].
    destruct (endsWith key ".xlsx"); [apply propagates_await | constructor]. }
  intros rows.
  apply propagates_bind.
  { unfold generateAiSummary.
    apply propagates_bind;
      [apply propagates_await | apply propagates_first_content]. }
  intros textSummary.
  apply propagates_bind.
  { unfold generateAiJsonSummary.
    apply propagates_bind;
      [apply propagates_await | apply propagates_first_content]. }
  intros jsonSummary.
  apply propagates_bind; [| intros _; constructor].
  apply propagates_for_of. intros out. apply propagates_await.
Qed.

Lemma propagates_handler event : propagates (the_handler event).
Proof.
  unfold handler. destruct (Records event) as [|record rest]; [constructor |].
  destruct (decodeURIComponent _) as [e|key]; [constructor |].
  apply propagates_try_rethrow, propagates_pipeline.
Qed.

(** The run of the handler on an event whose first record decodes to
    [key] is the run of the pipeline: the [catch] block throws again what
    it caught. *)
Lemma run_handler env event record rest key :
  Records event = record :: rest ->
  decodeURIComponent (replace_plus (object_key record)) = inr key ->
  run env [] (the_handler event)
  = run env [] (the_pipeline (bucket_name record) key).
Proof.
  intros HR Hk. unfold handler. rewrite HR, Hk. apply run_try_rethrow.
Qed.

(** C3, as the code has it: for a key that ends with neither [.csv] nor
    [.xlsx] the handler makes one call, the fetch of the object, and no
    other: no decoder, no text generation, no write.  It throws the error
    of the fetch when the fetch is rejected, and [Unsupported file type]
    otherwise. *)
Theorem unsupported_type_after_fetch :
  forall env event record rest key,
    Records event = record :: rest ->
    decodeURIComponent (replace_plus (object_key record)) = inr key ->
    endsWith key ".csv" = false ->
    endsWith key ".xlsx" = false ->
    let fetch := GetObject (bucket_name record) key in
    run env [] (the_handler event)
    = ([Event fetch (env [] _ fetch)],
       match env [] _ fetch with
       | inl e => inl e
       | inr _ => inl (Error "Unsupported file type")
       end).
Proof.
  intros env event record rest key HR Hk Hcsv Hxlsx fetch.
  rewrite (run_handler env event record rest key HR Hk).
  unfold pipeline. rewrite run_bind, run_await. fold fetch.
  destruct (env [] _ fetch) as [e|body]; [reflexivity |].
  rewrite Hcsv, Hxlsx. reflexivity.
Qed.

Ltac answer env H :=
  rewrite ?run_bind, ?run_await in H;
  match type of H with
  | context [env ?h ?R ?c] =>
      let r := fresh "r" in
      destruct (env h R c) as [r|r]
  end.

Ltac finished H :=
  injection H as <- <-;
  unfold decoded, puts; cbn [flat_map app].

Ltac reading :=
  cbn [decoded_of put_of app].

(** What a run of the pipeline decodes and writes. *)
Lemma pipeline_writes env bucket key tr out :
  run env [] (the_pipeline bucket key) = (tr, out) ->
  (decoded tr = [] /\ puts tr = [] /\ exists e, out = inl e)
  \/ (exists rows textSummary jsonSummary n,
        decoded tr = [rows]
        /\ puts tr = firstn n (writes key rows textSummary jsonSummary)
        /\ (forall resp, out = inr resp -> n = 3)
        /\ (n < 3 -> exists e, out = inl e)).
Proof.
  unfold pipeline. intros H.
  answer env H; [finished H; reading; left; repeat split; eauto |].
  assert (Hdec : (exists c : call (list Row),
             run env ([] ++ [Event (GetObject bucket key) (inr r)])
               (if endsWith key ".csv" then await (parseCsvFromS3 r)
                else if endsWith key ".xlsx" then await (parseXlsxFromS3 r)
                     else Throw (Error "Unsupported file type"))
             = run env ([] ++ [Event (GetObject bucket key) (inr r)]) (await c)
             /\ (forall x, decoded_of (Event c (inr x)) = [x])
             /\ (forall x, put_of (Event c x) = [])
             /\ (forall x, decoded_of (Event c (inl x)) = []))
          \/ endsWith key ".csv" = false /\ endsWith key ".xlsx" = false).
  { destruct (endsWith key ".csv");
      [left; exists (parseCsvFromS3 r); repeat split |].
    destruct (endsWith key ".xlsx");
      [left; exists (parseXlsxFromS3 r); repeat split |].
    now right. }
  destruct Hdec as [(c & Hc & Hd & Hp & Hd')|[Hcsv Hxlsx]].
  2:{ rewrite Hcsv, Hxlsx in H. rewrite run_bind in H. cbn [run] in H.
      finished H. reading. left. repeat split; eauto. }
  rewrite run_bind, Hc in H. clear Hc.
  answer env H.
  { finished H. rewrite ?Hd', ?Hp; reading. left. repeat split; eauto. }
  rename r0 into rows. right. exists rows.
  unfold generateAiSummary, generateAiJsonSummary, first_content in H.
  answer env H.
  { finished H. rewrite ?Hd, ?Hp; reading. exists EmptyString, EmptyString, 0.
    repeat split; [discriminate | eauto]. }
  destruct r0 as [|[textSummary|] choices1].
  1,3: rewrite ?run_bind in H; cbn [run] in H; finished H;
    rewrite ?Hd, ?Hp; reading; exists EmptyString, EmptyString, 0;
    (repeat split; [discriminate | eauto]).
  cbn [run] in H.
  answer env H.
  { finished H. rewrite ?Hd, ?Hp; reading. exists EmptyString, EmptyString, 0.
    repeat split; [discriminate | eauto]. }
  destruct r0 as [|[jsonSummary|] choices2].
  1,3: rewrite ?run_bind in H; cbn [run] in H; finished H;
    rewrite ?Hd, ?Hp; reading; exists EmptyString, EmptyString, 0;
    (repeat split; [discriminate | eauto]).
  cbn [run] in H.
  exists (trim textSummary), (trim jsonSummary).
  unfold outputs in H. cbn [for_of fst snd] in H.
  answer env H.
  { finished H. rewrite ?Hd, ?Hp; reading. exists 1.
    repeat split; [discriminate | eauto]. }
  answer env H.
  { finished H. rewrite ?Hd, ?Hp; reading. exists 2.
    repeat split; [discriminate | eauto]. }
  answer env H.
  { finished H. rewrite ?Hd, ?Hp; reading. exists 3.
    repeat split; try discriminate. intros Hn; lia. }
  cbn [run] in H. finished H. rewrite ?Hd, ?Hp; reading. exists 3.
  repeat split. intros Hn; lia.
Qed.

Lemma invocation_writes env event key tr out :
  invocation env event key tr out ->
  (decoded tr = [] /\ puts tr = [] /\ exists e, out = inl e)
  \/ (exists rows textSummary jsonSummary n,
        decoded tr = [rows]
        /\ puts tr = firstn n (writes key rows textSummary jsonSummary)
        /\ (forall resp, out = inr resp -> n = 3)
        /\ (n < 3 -> exists e, out = inl e)).
Proof.
  intros (record & rest & HR & Hk & Hrun).
  rewrite (run_handler env event record rest key HR Hk) in Hrun.
  exact (pipeline_writes _ _ _ _ _ Hrun).
Qed.

Lemma handler_success env event tr resp :
  run env [] (the_handler event) = (tr, inr resp) ->
  exists key, invocation env event key tr (inr resp).
Proof.
  intros H. pose proof H as H'. unfold handler in H'.
  destruct (Records event) as [|record rest] eqn:HR; [discriminate |].
  destruct (decodeURIComponent _) as [e|key] eqn:Hk; [discriminate |].
  exists key, record, rest. auto.
Qed.

(** C8: a rejected call is the last call of the invocation and its error
    is the error the handler throws, for the fetch, the decoders, the text
    generation and each write alike; no later call is made.  The handler
    returns only when no call was rejected and the three objects were
    written. *)
Theorem failures_propagate :
  forall env event tr out,
    run env [] (the_handler event) = (tr, out) ->
    aborts_on_failure tr out
    /\ (forall resp, out = inr resp ->
          (forall ev, In ev tr -> failure ev = None)
          /\ List.length (puts tr) = 3).
Proof.
  intros env event tr out Hrun.
  assert (Ha : aborts_on_failure tr out).
  { pose proof (propagates_aborts env _ (propagates_handler event) []) as H.
    rewrite Hrun in H. apply H. intros x []. }
  split; [exact Ha |].
  intros resp ->. split.
  - intros ev Hin. destruct (failure ev) as [e|] eqn:He; [| reflexivity].
    apply in_split in Hin as (pre & post & ->).
    destruct (Ha pre ev post e eq_refl He) as [_ Hout]. discriminate.
  - destruct (handler_success _ _ _ _ Hrun) as (key & Hinv).
    destruct (invocation_writes _ _ _ _ _ Hinv)
      as [(_ & _ & e & He)|(rows & t & j & n & _ & Hp & Hn & _)];
      [discriminate |].
    rewrite Hp, (Hn resp eq_refl). reflexivity.
Qed.

(** C7: the base name of [folder/report.2024.xlsx] is [report]; the base
    name of a key is the part after its last [/] cut at its first dot;
    and the objects written by an invocation are, in this order, those of
    the keys [summaries/<baseName>.txt], [.json] and [.csv], all three
    when the handler returns. *)
Theorem output_naming :
  baseName "folder/report.2024.xlsx" = "report"
  /\ map (outKey "folder/report.2024.xlsx") ["txt"; "json"; "csv"]
     = ["summaries/report.txt"; "summaries/report.json";
        "summaries/report.csv"]
  /\ (forall key,
        exists dir rest,
          key = (dir ++ baseName key ++ rest)%string
          /\ (dir = EmptyString
              \/ exists d, dir = (d ++ String "/" EmptyString)%string)
          /\ occurs "/" (baseName key ++ rest) = false
          /\ occurs "." (baseName key) = false
          /\ (rest = EmptyString \/ exists r, rest = String "." r))
  /\ (forall env event key tr out,
        invocation env event key tr out ->
        exists n,
          map (fun p => snd (fst p)) (puts tr)
          = firstn n (map (fun ext => ("summaries/" ++ baseName key
                                       ++ "." ++ ext)%string)
                          ["txt"; "json"; "csv"])
          /\ (forall resp, out = inr resp -> n = 3)).
Proof.
  split; [reflexivity | split; [reflexivity | split; [exact baseName_spec |]]].
  intros env event key tr out Hinv.
  destruct (invocation_writes _ _ _ _ _ Hinv)
    as [(_ & Hp & e & He)|(rows & t & j & n & _ & Hp & Hn & _)].
  - exists 0. rewrite Hp, He. split; [reflexivity | discriminate].
  - exists n. split; [| exact Hn]. rewrite Hp.
    unfold writes. rewrite <- firstn_map. reflexivity.
Qed.

(** C9: in every invocation that decoded [rows], the object written
    under [summaries/<baseName>.csv] is the encoding of the table of the
    profile of [rows]; so two invocations that decode the same rows write
    the same [.csv] object, whatever the other collaborators answer. *)
Theorem csv_output_deterministic :
  forall rows env1 event1 key1 tr1 out1 env2 event2 key2 tr2 out2,
    invocation env1 event1 key1 tr1 out1 ->
    invocation env2 event2 key2 tr2 out2 ->
    decoded tr1 = [rows] ->
    decoded tr2 = [rows] ->
    forall b1 body1 b2 body2,
      In (b1, outKey key1 "csv", body1) (puts tr1) ->
      In (b2, outKey key2 "csv", body2) (puts tr2) ->
      body1 = csvParser_parse (csvRows (buildProfile rows))
      /\ body1 = body2.
Proof.
  assert (H : forall rows env event key tr out,
             invocation env event key tr out -> decoded tr = [rows] ->
             forall b body,
               In (b, outKey key "csv", body) (puts tr) ->
               body = csvParser_parse (csvRows (buildProfile rows))).
  { intros rows env event key tr out Hinv Hd b body Hin.
    destruct (invocation_writes _ _ _ _ _ Hinv)
      as [(_ & Hp & _)|(rows' & t & j & n & Hd' & Hp & _)].
    - rewrite Hp in Hin. destruct Hin.
    - rewrite Hd' in Hd. injection Hd as ->.
      rewrite Hp in Hin. apply In_firstn in Hin.
      destruct Hin as [Hin|[Hin|[Hin|[]]]];
        apply pair_equal_spec in Hin as [Hin Hb];
        apply pair_equal_spec in Hin as [_ Hk].
      + apply outKey_inj in Hk. discriminate.
      + apply outKey_inj in Hk. discriminate.
      + now symmetry. }
  intros rows env1 event1 key1 tr1 out1 env2 event2 key2 tr2 out2
    Hinv1 Hinv2 Hd1 Hd2 b1 body1 b2 body2 Hin1 Hin2.
  rewrite (H _ _ _ _ _ _ Hinv1 Hd1 _ _ Hin1).
  rewrite (H _ _ _ _ _ _ Hinv2 Hd2 _ _ Hin2). split; reflexivity.
Qed.

End HandlerProperties.

(** ** The handler on the sample collaborators *)

Lemma sample_invocation_run env key :
  sample_invocation env (event_for key) (replace_plus key)
    (fst (run env [] (sample_handler (event_for key))))
    (snd (run env [] (sample_handler (event_for key)))).
Proof.
  exists {| object_key := key; bucket_name := "in-bucket" |}, [].
  split; [reflexivity | split; [reflexivity |]].
  apply surjective_pairing.
Qed.

(** For the key [report.pdf] the object is fetched before the type of the
    file is looked at: the trace of the invocation holds the fetch. *)
Lemma fetch_precedes_type_check :
  run (ok_env "A summary.") [] (sample_handler (event_for "report.pdf"))
  = ([Event (GetObject "in-bucket" "report.pdf") (inr "amt,10,20,x")],
     inl (Error "Unsupported file type"))
  /\ fst (run (ok_env "A summary.") []
            (sample_handler (event_for "report.pdf"))) <> [].
Proof. split; [reflexivity | discriminate]. Qed.

Lemma unsupported_type_after_fetch_witness :
  run (ok_env "A summary.") [] (sample_handler (event_for "notes.txt"))
  = ([Event (GetObject "in-bucket" "notes.txt") (inr "amt,10,20,x")],
     inl (Error "Unsupported file type")).
Proof.
  exact (unsupported_type_after_fetch
           sample_decodeURIComponent sample_stringify_numericCols
           sample_stringify_profile sample_csv "out-bucket"
           (ok_env "A summary.") (event_for "notes.txt")
           {| object_key := "notes.txt"; bucket_name := "in-bucket" |} []
           "notes.txt" eq_refl eq_refl eq_refl eq_refl).
Defined.

Lemma failures_propagate_witness :
  let r := run json_put_fails [] (sample_handler (event_for "data.csv")) in
  snd r = inl AccessDenied
  /\ map (fun p => snd (fst p)) (puts (fst r))
     = ["summaries/data.txt"; "summaries/data.json"]
  /\ aborts_on_failure (fst r) (snd r)
  /\ List.length
       (puts (fst (run (ok_env "A summary.") []
                     (sample_handler (event_for "data.csv"))))) = 3.
Proof.
  cbv zeta. split; [reflexivity | split; [reflexivity | split]].
  - exact (proj1 (failures_propagate
                    sample_decodeURIComponent sample_stringify_numericCols
                    sample_stringify_profile sample_csv "out-bucket"
                    json_put_fails (event_for "data.csv") _ _
                    (surjective_pairing _))).
  - exact (proj2 (proj2 (failures_propagate
                    sample_decodeURIComponent sample_stringify_numericCols
                    sample_stringify_profile sample_csv "out-bucket"
                    (ok_env "A summary.") (event_for "data.csv") _ _
                    (surjective_pairing _)) _ eq_refl)).
Defined.

Lemma output_naming_witness :
  exists n,
    map (fun p => snd (fst p))
        (puts (fst (run (ok_env "A summary.") []
                      (sample_handler
                         (event_for "folder/report.2024.xlsx")))))
    = firstn n ["summaries/report.txt"; "summaries/report.json";
                "summaries/report.csv"]
    /\ n = 3.
Proof.
  destruct (proj2 (proj2 (proj2
              (output_naming
                 sample_decodeURIComponent sample_stringify_numericCols
                 sample_stringify_profile sample_csv "out-bucket")))
              _ _ _ _ _
              (sample_invocation_run (ok_env "A summary.")
                 "folder/report.2024.xlsx")) as (n & Hk & Hn).
  exists n. split; [exact Hk | exact (Hn _ eq_refl)].
Defined.

Lemma csv_output_deterministic_witness :
  let tr1 := fst (run (ok_env "A summary.") []
                    (sample_handler (event_for "data.csv"))) in
  let tr2 := fst (run (ok_env "Another summary.") []
                    (sample_handler (event_for "data.csv"))) in
  decoded tr1 = [scenario_rows]
  /\ decoded tr2 = [scenario_rows]
  /\ puts tr1 <> puts tr2
  /\ forall b1 body1 b2 body2,
       In (b1, "summaries/data.csv", body1) (puts tr1) ->
       In (b2, "summaries/data.csv", body2) (puts tr2) ->
       body1 = sample_csv (csvRows (buildProfile scenario_rows))
       /\ body1 = body2.
Proof.
  cbv zeta. split; [reflexivity | split; [reflexivity | split]].
  - discriminate.
  - exact (csv_output_deterministic
             sample_decodeURIComponent sample_stringify_numericCols
             sample_stringify_profile sample_csv "out-bucket"
             scenario_rows _ _ _ _ _ _ _ _ _ _
             (sample_invocation_run (ok_env "A summary.") "data.csv")
             (sample_invocation_run (ok_env "Another summary.") "data.csv")
             eq_refl eq_refl).
Defined.

(** * Further properties of [buildProfile] *)

Lemma get_own_set_own {V} (o : object V) k v k' :
  get_own (set_own o k v) k'
  = if String.eqb k k' then Some v else get_own o k'.
Proof.
  induction o as [|[k0 v0] o IH]; simpl; [reflexivity |].
  destruct (String.eqb_spec k0 k) as [->|Hk]; simpl.
  - now destruct (String.eqb k k').
  - rewrite IH. destruct (String.eqb_spec k0 k') as [->|Hk'];
      [| reflexivity].
    destruct (String.eqb_spec k k') as [->|]; [congruence | reflexivity].
Qed.

Lemma get_own_profile_column rows acc c col :
  get_own (profile_column rows acc c) col
  = if String.eqb c col && profiled rows c
    then Some (stats_of (column_numbers rows c))
    else get_own acc col.
Proof.
  unfold profile_column, profiled, assign.
  destruct (0 <? _)%nat; [| now rewrite andb_false_r, andb_false_r].
  rewrite andb_true_r.
  destruct (String.eqb c "__proto__"); simpl;
    [now rewrite andb_false_r |].
  rewrite get_own_set_own, andb_true_r. reflexivity.
Qed.

Lemma get_own_fold_profile_column rows cols : forall acc col,
  get_own (fold_left (profile_column rows) cols acc) col
  = if existsb (String.eqb col) cols && profiled rows col
    then Some (stats_of (column_numbers rows col))
    else get_own acc col.
Proof.
  induction cols as [|c cols IH]; intros acc col; simpl; [reflexivity |].
  rewrite IH, get_own_profile_column.
  rewrite (String.eqb_sym col c).
  destruct (String.eqb_spec c col) as [->|Hc]; simpl; [| reflexivity].
  destruct (profiled rows col); [| now rewrite andb_false_r].
  now destruct (existsb (String.eqb col) cols).
Qed.

(** X1: looking a column up in the profile.  A column has an entry
    exactly when it is a key of the first row other than [__proto__] and
    one of its values parsed; the entry then holds the statistics of the
    values that parsed.  A column that only later rows have, or whose
    values all fail to parse, has none. *)
Theorem column_lookup :
  forall sample rest col,
    get_own (numericCols (buildProfile (sample :: rest))) col
    = if existsb (String.eqb col) (Object_keys sample)
         && profiled (sample :: rest) col
      then Some (stats_of (column_numbers (sample :: rest) col))
      else None.
Proof.
  intros sample rest col. cbn [buildProfile numericCols].
  apply get_own_fold_profile_column.
Qed.

Lemma insert_by_index_perm {V} i (p : string * V) l :
  Permutation (p :: l) (insert_by_index i p l).
Proof.
  induction l as [|q l IH]; simpl; [reflexivity |].
  destruct (array_index (fst q)) as [j|]; [| reflexivity].
  destruct (i <=? j)%Z; [reflexivity |].
  rewrite perm_swap. now apply perm_skip.
Qed.

Lemma own_property_order_perm {V} (o : object V) :
  Permutation o (own_property_order o).
Proof.
  unfold own_property_order. induction o as [|p o IH]; [reflexivity |].
  cbn [indexed_properties fold_right filter]. fold (indexed_properties o).
  unfold is_array_index at 1.
  destruct (array_index (fst p)) as [i|]; cbn [negb].
  - rewrite <- insert_by_index_perm. cbn [app]. now apply perm_skip.
  - rewrite <- Permutation_middle. now apply perm_skip.
Qed.

Lemma Object_keys_NoDup {V} (o : object V) :
  NoDup (map fst o) -> NoDup (Object_keys o).
Proof.
  apply Permutation_NoDup, Permutation_map, own_property_order_perm.
Qed.

Lemma set_own_new_key {V} (o : object V) k v :
  ~ In k (map fst o) -> map fst (set_own o k v) = map fst o ++ [k].
Proof.
  induction o as [|[k0 v0] o IH]; simpl; intros H; [reflexivity |].
  destruct (String.eqb_spec k0 k) as [->|Hk]; [tauto |].
  simpl. rewrite IH; [reflexivity | tauto].
Qed.

Lemma profile_column_new_key rows acc c :
  ~ In c (map fst acc) ->
  map fst (profile_column rows acc c)
  = map fst acc ++ (if profiled rows c then [c] else []).
Proof.
  intros H. unfold profile_column, profiled, assign.
  destruct (0 <? _)%nat; [| now rewrite andb_false_r, app_nil_r].
  rewrite andb_true_r.
  destruct (String.eqb c "__proto__"); simpl; [now rewrite app_nil_r |].
  now apply set_own_new_key.
Qed.

Lemma fold_profile_column_keys rows cols : forall acc,
  NoDup cols ->
  (forall c, In c cols -> ~ In c (map fst acc)) ->
  map fst (fold_left (profile_column rows) cols acc)
  = map fst acc ++ filter (profiled rows) cols.
Proof.
  induction cols as [|c cols IH]; intros acc Hnd Hacc; simpl.
  - now rewrite app_nil_r.
  - apply NoDup_cons_iff in Hnd as [Hc Hnd].
    assert (Hk : map fst (profile_column rows acc c)
                 = map fst acc ++ (if profiled rows c then [c] else []))
      by (apply profile_column_new_key, Hacc; now left).
    rewrite IH; [| exact Hnd |].
    + rewrite Hk, <- app_assoc. now destruct (profiled rows c).
    + intros c' Hc' Hin. rewrite Hk in Hin.
      apply in_app_or in Hin as [Hin|Hin].
      * apply (Hacc c'); [now right | exact Hin].
      * destruct (profiled rows c); [| destruct Hin].
        destruct Hin as [<-|[]]. contradiction.
Qed.

(** X2: the columns of the profile, in order.  For a first row whose keys
    are distinct, the keys of [numericCols] are the keys of the first row
    in the order of [Object.keys], less the columns of which no value
    parsed (and less [__proto__]). *)
Theorem profiled_columns_in_order :
  forall sample rest,
    NoDup (map fst sample) ->
    map fst (numericCols (buildProfile (sample :: rest)))
    = filter (profiled (sample :: rest)) (Object_keys sample).
Proof.
  intros sample rest Hnd. cbn [buildProfile numericCols].
  rewrite fold_profile_column_keys; [reflexivity | | intros c _ []].
  now apply Object_keys_NoDup.
Qed.

Lemma profiled_columns_in_order_witness :
  map fst
    (numericCols
       (buildProfile
          [ [("name", VString "a"); ("7", VString "1"); ("amt", VString "2");
             ("3", VString "x"); ("0", VString "0")];
            [("name", VString "5")] ]))
  = ["0"; "7"; "name"; "amt"].
Proof.
  rewrite profiled_columns_in_order.
  - vm_compute. reflexivity.
  - vm_compute. repeat constructor; simpl; intuition discriminate.
Defined.

Lemma fold_profile_column_length rows cols : forall acc,
  List.length (fold_left (profile_column rows) cols acc)
  <= List.length acc + List.length cols.
Proof.
  induction cols as [|c cols IH]; intros acc; simpl; [lia |].
  specialize (IH (profile_column rows acc c)).
  assert (H : List.length (profile_column rows acc c) <= S (List.length acc)).
  { rewrite <- (length_map fst), <- (length_map fst acc).
    destruct (profile_column_keys rows acc c) as [-> | ->];
      [| rewrite length_app; simpl]; lia. }
  lia.
Qed.

(** X3: bounds on the profile.  The count of a column is at most the row
    count, and the profile has at most as many columns as the first row
    has keys. *)
Theorem count_bounds :
  forall rows,
    (forall col st,
        In (col, st) (numericCols (buildProfile rows)) ->
        Stat.count st <= rowCount (buildProfile rows))
    /\ List.length (numericCols (buildProfile rows))
       <= List.length (hd [] rows).
Proof.
  intros rows. split.
  - intros col st H. apply In_numericCols in H as [-> _].
    cbn [stats_of Stat.count]. rewrite column_numbers_length.
    assert (Hr : rowCount (buildProfile rows) = List.length rows)
      by (destruct rows; reflexivity).
    rewrite Hr. apply filter_length_le.
  - destruct rows as [|sample rows]; cbn [buildProfile numericCols hd];
      [simpl; lia |].
    pose proof (fold_profile_column_length (sample :: rows)
                  (Object_keys sample) []) as H.
    unfold Object_keys in H.
    rewrite length_map, own_property_order_length in H. exact H.
Qed.

Lemma count_bounds_witness :
  In ("amt", scenario_stat) (numericCols (buildProfile scenario_rows))
  /\ Stat.count scenario_stat <= rowCount (buildProfile scenario_rows).
Proof.
  assert (H : In ("amt", scenario_stat)
                 (numericCols (buildProfile scenario_rows)))
    by (vm_compute; left; reflexivity).
  split; [exact H |].
  exact (proj1 (count_bounds scenario_rows) "amt" scenario_stat H).
Defined.

(** X4: the least and the greatest value of a column are Numbers, never
    NaN, and the greatest is not below the least. *)
Theorem min_max_ordered :
  forall rows col st,
    In (col, st) (numericCols (buildProfile rows)) ->
    isNaN (Stat.min st) = false
    /\ isNaN (Stat.max st) = false
    /\ lt (Stat.max st) (Stat.min st) = false.
Proof.
  intros rows col st H. apply In_numericCols in H as [-> Hne].
  cbn [stats_of Stat.min Stat.max].
  assert (Hnan : forall x, In x (column_numbers rows col) -> isNaN x = false)
    by (intros x; apply column_numbers_not_NaN).
  destruct (Math_min_spec _ Hne Hnan) as [Hmin _].
  destruct (Math_max_spec _ Hne Hnan) as [Hmax Hup].
  repeat split; auto.
Qed.

Lemma min_max_ordered_witness :
  isNaN (Stat.min scenario_stat) = false
  /\ isNaN (Stat.max scenario_stat) = false
  /\ lt (Stat.max scenario_stat) (Stat.min scenario_stat) = false.
Proof.
  apply (min_max_ordered scenario_rows "amt").
  vm_compute. left. reflexivity.
Defined.

Lemma fold_add_NaN l : fold_left add l NaN = NaN.
Proof. induction l as [|x l IH]; simpl; [reflexivity | exact IH]. Qed.

Lemma fold_add_from_infinity s l :
  In (S754_infinity (negb s)) l ->
  fold_left add l (S754_infinity s) = NaN.
Proof.
  induction l as [|x l IH]; simpl; intros H; [destruct H |].
  destruct x as [sx|sx| |sx mx ex]; cbn [add SFadd];
    try (apply IH; destruct H as [H|H]; [discriminate | exact H]).
  - destruct s, sx; cbn [negb] in *;
      try apply fold_add_NaN;
      apply IH; (destruct H as [H|H]; [discriminate | exact H]).
  - apply fold_add_NaN.
Qed.

Lemma fold_add_infinities l : forall acc,
  In Infinity l -> In neg_Infinity l -> fold_left add l acc = NaN.
Proof.
  induction l as [|x l IH]; intros acc Hp Hn; [destruct Hp |].
  cbn [fold_left].
  destruct Hp as [->|Hp], Hn as [Hn|Hn]; try discriminate.
  - assert (H : add acc Infinity = Infinity \/ add acc Infinity = NaN).
    { destruct acc as [sa|[|]| |sa ma ea]; cbn; auto. }
    destruct H as [-> | ->]; [| apply fold_add_NaN].
    now apply (fold_add_from_infinity false).
  - subst x.
    assert (H : add acc neg_Infinity = neg_Infinity
                \/ add acc neg_Infinity = NaN).
    { destruct acc as [sa|[|]| |sa ma ea]; cbn; auto. }
    destruct H as [-> | ->]; [| apply fold_add_NaN].
    now apply (fold_add_from_infinity true).
  - now apply IH.
Qed.

(** X5: a column in which both infinities were parsed has NaN for its sum
    and for its average. *)
Theorem opposite_infinities_sum_NaN :
  forall rows col st,
    In (col, st) (numericCols (buildProfile rows)) ->
    In Infinity (column_numbers rows col) ->
    In neg_Infinity (column_numbers rows col) ->
    Stat.sum st = NaN /\ Stat.avg st = NaN.
Proof.
  intros rows col st H Hp Hn. apply In_numericCols in H as [-> _].
  cbn [stats_of Stat.sum Stat.avg].
  rewrite (fold_add_infinities _ pos_zero Hp Hn). split; reflexivity.
Qed.

Lemma opposite_infinities_sum_NaN_witness :
  exists st,
    numericCols (buildProfile opposite_infinities) = [("a", st)]
    /\ Stat.count st = 2 /\ Stat.sum st = NaN /\ Stat.avg st = NaN.
Proof.
  eexists. split; [vm_compute; reflexivity |].
  split; [reflexivity |].
  apply (opposite_infinities_sum_NaN opposite_infinities "a").
  - vm_compute. left. reflexivity.
  - vm_compute. left. reflexivity.
  - vm_compute. right. left. reflexivity.
Defined.

(** ** The order of the rows *)

Lemma lt_antisym a b :
  lt a b = false -> lt b a = false -> isNaN a = false -> isNaN b = false ->
  a = b \/ exists s s', a = S754_zero s /\ b = S754_zero s'.
Proof.
  unfold lt, SFltb.
  destruct a as [sa|sa| |sa ma ea], b as [sb|sb| |sb mb eb];
    simpl; try discriminate; try (right; eauto; fail);
    try destruct sa; try destruct sb; simpl;
    try discriminate; try (left; reflexivity);
    intros H1 H2 _ _; order_cases; try discriminate; try lia;
    left; subst; reflexivity.
Qed.

Lemma min_step_unfold lowest n :
  min_step lowest n = (if lt n lowest then n else lowest)
  \/ (n = neg_zero /\ lowest = pos_zero /\ min_step lowest n = neg_zero).
Proof.
  unfold min_step. destruct n as [[|]| | |], lowest as [[|]| | |]; auto.
Qed.

Lemma max_step_unfold highest n :
  max_step highest n = (if lt highest n then n else highest)
  \/ (n = pos_zero /\ highest = neg_zero /\ max_step highest n = pos_zero).
Proof.
  unfold max_step. destruct n as [[|]| | |], highest as [[|]| | |]; auto.
Qed.

Lemma min_step_below_zero lowest n :
  below_zero lowest -> below_zero (min_step lowest n).
Proof.
  intros Q.
  destruct (min_step_unfold lowest n) as [-> | (_ & _ & ->)]; [| now left].
  destruct (lt n lowest) eqn:El; [| exact Q].
  right. destruct Q as [-> | Q].
  - unfold pos_zero, neg_zero in *. now rewrite (lt_zero_r n false true).
  - exact (lt_trans _ _ _ El Q).
Qed.

Lemma max_step_above_zero highest n :
  above_zero highest -> above_zero (max_step highest n).
Proof.
  intros Q.
  destruct (max_step_unfold highest n) as [-> | (_ & _ & ->)]; [| now left].
  destruct (lt highest n) eqn:El; [| exact Q].
  right. destruct Q as [-> | Q].
  - unfold pos_zero, neg_zero in *. now rewrite (lt_zero_l n true false).
  - exact (lt_trans _ _ _ Q El).
Qed.

Lemma fold_min_below_zero l : forall lowest,
  below_zero lowest -> below_zero (fold_left min_step l lowest).
Proof.
  induction l as [|n l IH]; intros lowest Q; [exact Q |].
  apply IH, min_step_below_zero, Q.
Qed.

Lemma fold_max_above_zero l : forall highest,
  above_zero highest -> above_zero (fold_left max_step l highest).
Proof.
  induction l as [|n l IH]; intros highest Q; [exact Q |].
  apply IH, max_step_above_zero, Q.
Qed.

Lemma min_step_not_NaN lowest n :
  isNaN lowest = false -> isNaN n = false ->
  isNaN (min_step lowest n) = false.
Proof.
  intros Hl Hn.
  destruct (min_step_cases lowest n) as [[E _]|[E _]]; now rewrite E.
Qed.

Lemma max_step_not_NaN highest n :
  isNaN highest = false -> isNaN n = false ->
  isNaN (max_step highest n) = false.
Proof.
  intros Hl Hn.
  destruct (max_step_cases highest n) as [[E _]|[E _]]; now rewrite E.
Qed.

Lemma fold_min_neg_zero l : forall lowest,
  (forall x, In x l -> isNaN x = false) -> isNaN lowest = false ->
  In neg_zero l -> below_zero (fold_left min_step l lowest).
Proof.
  induction l as [|n l IH]; intros lowest Hnan Hl Hin; [destruct Hin |].
  cbn [fold_left]. destruct Hin as [->|Hin].
  - apply fold_min_below_zero. unfold below_zero.
    destruct lowest as [[|]|[|]| |[|] m e]; try discriminate Hl;
      first [left; reflexivity | right; reflexivity].
  - apply IH; [intros x Hx; apply Hnan; now right | | exact Hin].
    apply min_step_not_NaN; [exact Hl | apply Hnan; now left].
Qed.

Lemma fold_max_pos_zero l : forall highest,
  (forall x, In x l -> isNaN x = false) -> isNaN highest = false ->
  In pos_zero l -> above_zero (fold_left max_step l highest).
Proof.
  induction l as [|n l IH]; intros highest Hnan Hl Hin; [destruct Hin |].
  cbn [fold_left]. destruct Hin as [->|Hin].
  - apply fold_max_above_zero. unfold above_zero.
    destruct highest as [[|]|[|]| |[|] m e]; try discriminate Hl;
      first [left; reflexivity | right; reflexivity].
  - apply IH; [intros x Hx; apply Hnan; now right | | exact Hin].
    apply max_step_not_NaN; [exact Hl | apply Hnan; now left].
Qed.

Lemma Math_min_least l :
  l <> [] -> (forall x, In x l -> isNaN x = false) ->
  least_of l (Math_min l).
Proof.
  intros Hne Hnan. destruct (Math_min_spec l Hne Hnan) as [H1 H2].
  split; [exact H1 | split; [exact H2 |]].
  intros Hin. unfold Math_min. rewrite (existsb_isNaN_false _ Hnan).
  destruct (fold_min_neg_zero l Infinity Hnan eq_refl Hin) as [-> | H] ;
    [discriminate |].
  intros E. rewrite E in H. discriminate H.
Qed.

Lemma Math_max_greatest l :
  l <> [] -> (forall x, In x l -> isNaN x = false) ->
  greatest_of l (Math_max l).
Proof.
  intros Hne Hnan. destruct (Math_max_spec l Hne Hnan) as [H1 H2].
  split; [exact H1 | split; [exact H2 |]].
  intros Hin. unfold Math_max. rewrite (existsb_isNaN_false _ Hnan).
  destruct (fold_max_pos_zero l neg_Infinity Hnan eq_refl Hin) as [-> | H] ;
    [discriminate |].
  intros E. rewrite E in H. discriminate H.
Qed.

Lemma least_of_unique l m m' :
  (forall x, In x l -> isNaN x = false) ->
  least_of l m -> least_of l m' -> m = m'.
Proof.
  intros Hnan (Hm & Hlow & Hz) (Hm' & Hlow' & Hz').
  destruct (lt_antisym m m' (Hlow' m Hm) (Hlow m' Hm') (Hnan m Hm)
              (Hnan m' Hm')) as [E | (s & s' & -> & ->)]; [exact E |].
  destruct s, s'; try reflexivity.
  - now destruct (Hz' Hm).
  - now destruct (Hz Hm').
Qed.

Lemma greatest_of_unique l m m' :
  (forall x, In x l -> isNaN x = false) ->
  greatest_of l m -> greatest_of l m' -> m = m'.
Proof.
  intros Hnan (Hm & Hup & Hz) (Hm' & Hup' & Hz').
  destruct (lt_antisym m m' (Hup m' Hm') (Hup' m Hm) (Hnan m Hm)
              (Hnan m' Hm')) as [E | (s & s' & -> & ->)]; [exact E |].
  destruct s, s'; try reflexivity.
  - now destruct (Hz Hm').
  - now destruct (Hz' Hm).
Qed.

Lemma least_of_perm l l' m :
  Permutation l l' -> least_of l m -> least_of l' m.
Proof.
  intros P (H1 & H2 & H3). repeat split.
  - exact (Permutation_in _ P H1).
  - intros x Hx. apply H2. exact (Permutation_in _ (Permutation_sym P) Hx).
  - intros Hx. apply H3. exact (Permutation_in _ (Permutation_sym P) Hx).
Qed.

Lemma greatest_of_perm l l' m :
  Permutation l l' -> greatest_of l m -> greatest_of l' m.
Proof.
  intros P (H1 & H2 & H3). repeat split.
  - exact (Permutation_in _ P H1).
  - intros x Hx. apply H2. exact (Permutation_in _ (Permutation_sym P) Hx).
  - intros Hx. apply H3. exact (Permutation_in _ (Permutation_sym P) Hx).
Qed.

Lemma filter_perm {A} (f : A -> bool) l l' :
  Permutation l l' -> Permutation (filter f l) (filter f l').
Proof.
  induction 1 as [|x l l' P IH|x y l|l l' l'' P1 IH1 P2 IH2]; simpl.
  - constructor.
  - destruct (f x); [now constructor | exact IH].
  - destruct (f x), (f y); try reflexivity. apply perm_swap.
  - now transitivity (filter f l').
Qed.

Lemma column_numbers_perm rows rows' col :
  Permutation rows rows' ->
  Permutation (column_numbers rows col) (column_numbers rows' col).
Proof.
  intros P. unfold column_numbers. now apply filter_perm, Permutation_map.
Qed.

Lemma get_own_numericCols rows col st :
  get_own (numericCols (buildProfile rows)) col = Some st ->
  st = stats_of (column_numbers rows col) /\ column_numbers rows col <> [].
Proof.
  destruct rows as [|sample rest]; [discriminate |].
  cbn [buildProfile numericCols]. rewrite get_own_fold_profile_column.
  destruct (existsb _ _); [| discriminate].
  unfold profiled.
  destruct (negb _); [| discriminate]. cbn [andb].
  destruct (column_numbers (sample :: rest) col) as [|x l];
    [discriminate |].
  intros [= <-]. split; [reflexivity | discriminate].
Qed.

(** X14: the order of the rows.  When the rows are put in another order,
    a column that has an entry before and after has the same count, the
    same least and the same greatest value; and a reordering of the rows
    after the first keeps the columns that have an entry. *)
Theorem order_of_rows_irrelevant :
  (forall rows rows' col st st',
      Permutation rows rows' ->
      get_own (numericCols (buildProfile rows)) col = Some st ->
      get_own (numericCols (buildProfile rows')) col = Some st' ->
      Stat.count st' = Stat.count st
      /\ Stat.min st' = Stat.min st
      /\ Stat.max st' = Stat.max st)
  /\ (forall sample rest rest' col st,
        Permutation rest rest' ->
        get_own (numericCols (buildProfile (sample :: rest))) col = Some st ->
        exists st',
          get_own (numericCols (buildProfile (sample :: rest'))) col
          = Some st').
Proof.
  split.
  - intros rows rows' col st st' P H H'.
    apply get_own_numericCols in H as [-> Hne].
    apply get_own_numericCols in H' as [-> Hne'].
    pose proof (column_numbers_perm rows rows' col P) as Pc.
    assert (Hnan : forall x, In x (column_numbers rows col) -> isNaN x = false)
      by (intros x; apply column_numbers_not_NaN).
    assert (Hnan' : forall x, In x (column_numbers rows' col)
                              -> isNaN x = false)
      by (intros x; apply column_numbers_not_NaN).
    cbn [stats_of Stat.count Stat.min Stat.max]. repeat split.
    + symmetry. now apply Permutation_length.
    + apply (least_of_unique (column_numbers rows' col)); [exact Hnan' | |].
      * now apply Math_min_least.
      * apply (least_of_perm _ _ _ Pc). now apply Math_min_least.
    + apply (greatest_of_unique (column_numbers rows' col));
        [exact Hnan' | |].
      * now apply Math_max_greatest.
      * apply (greatest_of_perm _ _ _ Pc). now apply Math_max_greatest.
  - intros sample rest rest' col st P H.
    cbn [buildProfile numericCols] in *.
    rewrite get_own_fold_profile_column in *.
    destruct (existsb _ _); [| discriminate H]. cbn [andb] in *.
    assert (E : profiled (sample :: rest') col
                = profiled (sample :: rest) col).
    { unfold profiled. f_equal. f_equal. symmetry.
      apply Permutation_length, column_numbers_perm. now constructor. }
    rewrite E. destruct (profiled (sample :: rest) col);
      [eauto | discriminate H].
Qed.

Lemma order_of_rows_irrelevant_witness :
  let rows := [ [("v", VString "0")]; [("v", VString "-0")];
                [("v", VString "7")]; [("v", VString "x")] ] in
  let rows' := [ [("v", VString "x")]; [("v", VString "7")];
                 [("v", VString "-0")]; [("v", VString "0")] ] in
  exists st st',
    get_own (numericCols (buildProfile rows)) "v" = Some st
    /\ get_own (numericCols (buildProfile rows')) "v" = Some st'
    /\ Stat.count st' = Stat.count st
    /\ Stat.min st' = Stat.min st
    /\ Stat.max st' = Stat.max st
    /\ Stat.min st = neg_zero.
Proof.
  cbv zeta. eexists _, _.
  split; [vm_compute; reflexivity | split; [vm_compute; reflexivity |]].
  assert (P : Permutation
                [ [("v", VString "0")]; [("v", VString "-0")];
                  [("v", VString "7")]; [("v", VString "x")] ]
                [ [("v", VString "x")]; [("v", VString "7")];
                  [("v", VString "-0")]; [("v", VString "0")] ]).
  { apply Permutation_rev. }
  destruct (proj1 order_of_rows_irrelevant _ _ "v" _ _ P eq_refl eq_refl)
    as (H1 & H2 & H3).
  split; [exact H1 | split; [exact H2 | split; [exact H3 | reflexivity]]].
Defined.

(** * Further properties of the parsing of cells *)

Lemma trim_start_all_white ws s :
  all_white ws = true -> trim_start (ws ++ s) = trim_start s.
Proof.
  induction ws as [|c ws IH]; cbn [all_white append trim_start];
    [reflexivity |].
  intros H. apply andb_true_iff in H as [Hc Hws]. now rewrite Hc, IH.
Qed.

Lemma white_space_not_digit c : is_white_space c = true -> is_digit c = false.
Proof.
  destruct c as [[] [] [] [] [] [] [] []]; simpl; try discriminate;
    reflexivity.
Qed.

Lemma all_white_no_digits ws : all_white ws = true -> no_digits ws = true.
Proof.
  induction ws as [|c ws IH]; cbn [all_white no_digits]; [reflexivity |].
  intros H. apply andb_true_iff in H as [Hc Hws].
  now rewrite (white_space_not_digit c Hc), IH.
Qed.

Lemma parseFloat_all_white ws :
  all_white ws = true -> parseFloat_string ws = NaN.
Proof.
  intros H. unfold parseFloat_string.
  rewrite <- (append_empty_r ws), (trim_start_all_white ws _ H).
  reflexivity.
Qed.

(** X11: cells without a number.  A row that lacks the column, a boolean
    cell and a text that is empty or made of white space only are
    discarded for the column; a cell that is a Number other than NaN is
    kept as itself, a negative zero as zero. *)
Theorem cells_without_number_discarded :
  (forall r col pre post,
      get_own r col = None ->
      column_numbers (pre ++ r :: post) col
      = column_numbers (pre ++ post) col)
  /\ (forall b, discarded (VBoolean b))
  /\ (forall ws, all_white ws = true -> discarded (VString ws))
  /\ (forall n,
        isNaN n = false ->
        kept_as (VNumber n)
          (match n with S754_zero _ => pos_zero | _ => n end)).
Proof.
  split; [| split; [| split]].
  - intros r col pre post H.
    apply (NaN_discarded VUndefined eq_refl). unfold prop. now rewrite H.
  - intros b. now apply NaN_discarded.
  - intros ws H. apply NaN_discarded. cbn [parseFloat].
    now rewrite parseFloat_all_white.
  - intros n H.
    replace (match n with S754_zero _ => pos_zero | _ => n end)
      with (parseFloat (VNumber n)) by (destruct n; reflexivity).
    apply not_NaN_kept. destruct n; try reflexivity; discriminate H.
Qed.

Lemma cells_without_number_discarded_witness :
  column_numbers
    [ [("amt", VString "10"); ("qty", VString "1")];
      [("amt", VString "20")];
      [("amt", VString "30"); ("qty", VString "  ")] ] "qty"
  = column_numbers [ [("amt", VString "10"); ("qty", VString "1")] ] "qty".
Proof.
  destruct cells_without_number_discarded as (H1 & _ & H3 & _).
  exact (eq_trans
           (H1 [("amt", VString "20")] "qty"
               [ [("amt", VString "10"); ("qty", VString "1")] ]
               [ [("amt", VString "30"); ("qty", VString "  ")] ] eq_refl)
           (H3 "  " eq_refl
               [ [("amt", VString "10"); ("qty", VString "1")] ]
               [("amt", VString "30"); ("qty", VString "  ")] [] "qty"
               eq_refl)).
Defined.

(** X12: white space around a number.  A text made of white space, a
    decimal literal and white space again parses to the Number of the
    literal and is kept for the column. *)
Theorem surrounding_white_space_ignored :
  forall ws d ws',
    all_white ws = true -> well_formed d = true -> all_white ws' = true ->
    parseFloat (VString (ws ++ literal_text d ++ ws')) = literal_number d
    /\ kept_as (VString (ws ++ literal_text d ++ ws')) (literal_number d).
Proof.
  intros ws d ws' Hws Hwf Hws'.
  assert (H : parseFloat (VString (ws ++ literal_text d ++ ws'))
              = literal_number d).
  { cbn [parseFloat]. unfold parseFloat_string.
    rewrite (trim_start_all_white ws _ Hws).
    apply (parseFloat_literal d ws' Hwf (all_white_no_digits ws' Hws')). }
  split; [exact H |].
  rewrite <- H. apply not_NaN_kept. rewrite H. apply round_decimal_not_NaN.
Qed.

Lemma surrounding_white_space_ignored_witness :
  parseFloat (VString "  3.5 ") = dyadic 7 (-1).
Proof.
  exact (proj1 (surrounding_white_space_ignored
                  "  " three_and_a_half " " eq_refl eq_refl eq_refl)).
Defined.

(** * Further properties of the output keys *)

Lemma split_app sep a b :
  split sep (a ++ String sep b) = split sep a ++ split sep b.
Proof.
  induction a as [|c a IH]; cbn [append split].
  - now rewrite Ascii.eqb_refl.
  - destruct (Ascii.eqb c sep); [now rewrite IH |].
    rewrite IH. destruct (split sep a) as [|p ps] eqn:E;
      [now destruct (split_not_nil sep a) | reflexivity].
Qed.

Lemma split_no_sep sep s : occurs sep s = false -> split sep s = [s].
Proof.
  induction s as [|c s IH]; cbn [occurs split]; [reflexivity |].
  intros H. apply orb_false_iff in H as [Hc Hs].
  now rewrite Hc, (IH Hs).
Qed.

Lemma last_app_not_nil {A} (l l' : list A) d :
  l' <> [] -> last (l ++ l') d = last l' d.
Proof.
  intros H. induction l as [|x l IH]; [reflexivity |].
  cbn [app]. destruct (l ++ l') as [|y r] eqn:E.
  - apply app_eq_nil in E as [_ E]. contradiction.
  - exact IH.
Qed.

Lemma occurs_app c a b : occurs c (a ++ b) = occurs c a || occurs c b.
Proof.
  induction a as [|x a IH]; cbn [append occurs]; [reflexivity |].
  now rewrite IH, orb_assoc.
Qed.

Lemma baseName_file dir file :
  occurs "/" file = false ->
  baseName (dir ++ String "/" file) = baseName file.
Proof.
  intros H. unfold baseName.
  rewrite (split_app "/" dir file).
  now rewrite last_app_not_nil by apply split_not_nil.
Qed.

Lemma baseName_stem stem rest :
  occurs "/" stem = false -> occurs "." stem = false ->
  occurs "/" rest = false ->
  baseName (stem ++ String "." rest) = stem.
Proof.
  intros H1 H2 H3. unfold baseName.
  rewrite (split_no_sep "/" (stem ++ String "." rest)).
  - cbn [last]. now rewrite (split_app "." stem rest),
      (split_no_sep "." stem H2).
  - rewrite occurs_app, H1. cbn [occurs]. now rewrite H3.
Qed.

(** X13: the base name of [dir/stem.rest].  When [stem] has neither a
    [/] nor a [.] and [rest] has no [/], the base name is [stem], with or
    without the directory and whatever [rest] is; so inputs that differ
    in their directory or after the first dot of their file name are
    written under the same output keys. *)
Theorem baseName_of_parts :
  forall dir1 dir2 stem rest1 rest2 ext,
    occurs "/" stem = false -> occurs "." stem = false ->
    occurs "/" rest1 = false -> occurs "/" rest2 = false ->
    baseName (dir1 ++ "/" ++ stem ++ "." ++ rest1) = stem
    /\ baseName (stem ++ "." ++ rest1) = stem
    /\ baseName (dir1 ++ "/" ++ stem) = stem
    /\ outKey (dir1 ++ "/" ++ stem ++ "." ++ rest1) ext
       = outKey (dir2 ++ "/" ++ stem ++ "." ++ rest2) ext.
Proof.
  intros dir1 dir2 stem rest1 rest2 ext Hs1 Hs2 Hr1 Hr2.
  assert (H : forall dir rest,
             occurs "/" rest = false ->
             baseName (dir ++ "/" ++ stem ++ "." ++ rest) = stem).
  { intros dir rest Hr. cbn [append].
    rewrite baseName_file; [now apply baseName_stem |].
    rewrite occurs_app, Hs1. cbn [occurs]. now rewrite Hr. }
  split; [now apply H | split; [now apply baseName_stem | split]].
  - cbn [append]. rewrite (baseName_file dir1 stem Hs1).
    unfold baseName. rewrite (split_no_sep "/" stem Hs1). cbn [last].
    now rewrite (split_no_sep "." stem Hs2).
  - unfold outKey. now rewrite !H.
Qed.

Lemma baseName_of_parts_witness :
  baseName "in/2024/report.v2.csv" = "report"
  /\ outKey "in/2024/report.v2.csv" "csv" = outKey "old/report.xlsx" "csv".
Proof.
  destruct (baseName_of_parts "in/2024" "old" "report" "v2.csv" "xlsx" "csv"
              eq_refl eq_refl eq_refl eq_refl) as (H1 & _ & _ & H4).
  split; [exact H1 | exact H4].
Defined.

(** * Further properties of the handler *)

Section HandlerCalls.

Variable decodeURIComponent : string -> exn + string.
Variable JSON_stringify_numericCols : object ColumnStat -> string.
Variable JSON_stringify_profile : DatasetProfile -> string.
Variable csvParser_parse : list csvRow -> string.
Variable OUTPUT_BUCKET : string.

Local Abbreviation the_pipeline :=
  (pipeline JSON_stringify_numericCols JSON_stringify_profile
     csvParser_parse OUTPUT_BUCKET).
Local Abbreviation the_handler :=
  (handler decodeURIComponent JSON_stringify_numericCols
     JSON_stringify_profile csvParser_parse OUTPUT_BUCKET).
Local Abbreviation invocation :=
  (invocation decodeURIComponent JSON_stringify_numericCols
     JSON_stringify_profile csvParser_parse OUTPUT_BUCKET).

(** One step of the run of the pipeline in the hypothesis [H]: the next
    call is answered, by a rejection or by a value. *)
Ltac exec_step env H :=
  first
    [ progress (rewrite ?run_bind, ?run_await in H)
    | progress (cbn [run for_of fst snd] in H)
    | match type of H with
      | context [env ?h ?R ?c] =>
          let r := fresh "r" in destruct (env h R c) as [r|r]
      end
    | match type of H with
      | context [if endsWith ?k ?x then _ else _] =>
          let E := fresh "E" in destruct (endsWith k x) eqn:E
      end
    | match type of H with
      | context [match ?l with [] => _ | _ :: _ => _ end] =>
          is_var l; destruct l as [|[?|] ?]
      end ].

Ltac exec env H :=
  unfold pipeline, generateAiSummary, generateAiJsonSummary, first_content,
    outputs in H;
  repeat exec_step env H;
  injection H as <- <-; cbn [app].

Lemma pipeline_kinds env bucket key tr out :
  run env [] (the_pipeline bucket key) = (tr, out) ->
  exists n,
    1 <= n <= 7
    /\ map kind_of tr = firstn n (script key)
    /\ fetched tr = [(bucket, key)]
    /\ (forall resp, out = inr resp -> n = 7 /\ resp = ok_response).
Proof.
  intros H. unfold script. exec env H.
  all: match goal with
       | |- exists n, _ /\ map kind_of ?t = _ /\ _ =>
           exists (List.length t)
       end.
  all: cbn [List.length map kind_of firstn fetched flat_map fetched_of app].
  all: repeat split; try lia; try discriminate.
  all: match goal with
       | Hr : inr _ = inr _ |- _ => injection Hr as <-; reflexivity
       end.
Qed.

Lemma pipeline_summaries env bucket key tr out :
  run env [] (the_pipeline bucket key) = (tr, out) ->
  (puts tr = []
   /\ forall choices,
        In choices (generated tr) -> no_content choices = true ->
        out = inl (TypeError "Cannot read properties of undefined"))
  \/ (exists c1 ch1 c2 ch2 rows m,
        generated tr = [Some c1 :: ch1; Some c2 :: ch2]
        /\ decoded tr = [rows]
        /\ 1 <= m
        /\ puts tr
           = firstn m
               [ (OUTPUT_BUCKET, outKey key "txt", trim c1);
                 (OUTPUT_BUCKET, outKey key "json", trim c2);
                 (OUTPUT_BUCKET, outKey key "csv",
                  csvParser_parse (csvRows (buildProfile rows))) ]).
Proof.
  intros H. exec env H.
  all: unfold puts, generated, decoded;
    cbn [flat_map put_of generated_of decoded_of app].
  all: first
         [ left; split; [reflexivity |];
           intros choices Hin Hno; cbn [In] in Hin;
           repeat match goal with
                  | Hx : _ \/ _ |- _ => destruct Hx as [Hx|Hx]
                  | Hx : False |- _ => destruct Hx
                  | Hx : _ = choices |- _ => subst choices
                  end;
           first [discriminate Hno | reflexivity]
         | right;
           match goal with
           | |- context [?l = firstn _ _] =>
               eexists _, _, _, _, _, (List.length l)
           end;
           cbn [List.length firstn];
           repeat split; lia ].
Qed.

(** X6: no call is made exactly when the trigger is unusable: when the
    event has no record, and the handler throws a TypeError, or when the
    key of its first record does not decode, and the handler throws the
    error of the decoding.  In every other invocation the first call is
    the fetch of the decoded key from the bucket of the first record.
    Records after the first change nothing. *)
Theorem no_call_iff_trigger_unusable :
  forall env trigger tr out,
    run env [] (the_handler trigger) = (tr, out) ->
    (tr = [] <->
     (Records trigger = []
      \/ exists record rest e,
           Records trigger = record :: rest
           /\ decodeURIComponent (replace_plus (object_key record)) = inl e))
    /\ (Records trigger = [] ->
        out = inl (TypeError "Cannot read properties of undefined"))
    /\ (forall record rest e,
          Records trigger = record :: rest ->
          decodeURIComponent (replace_plus (object_key record)) = inl e ->
          out = inl e)
    /\ (forall record rest key,
          Records trigger = record :: rest ->
          decodeURIComponent (replace_plus (object_key record)) = inr key ->
          exists ev later,
            tr = ev :: later
            /\ kind_of ev = Fetch
            /\ fetched_of ev = [(bucket_name record, key)])
    /\ (tr, out)
       = run env [] (the_handler {| Records := firstn 1 (Records trigger) |}).
Proof.
  intros env trigger tr out Hrun.
  assert (Hfirst : (tr, out)
                   = run env []
                       (the_handler
                          {| Records := firstn 1 (Records trigger) |})).
  { rewrite <- Hrun. unfold handler.
    destruct (Records trigger); reflexivity. }
  destruct (Records trigger) as [|record rest] eqn:HR.
  { unfold handler in Hrun. rewrite HR in Hrun. cbn [run] in Hrun.
    injection Hrun as <- <-.
    split; [split; [now left | reflexivity] |].
    split; [reflexivity |].
    split; [discriminate |]. split; [discriminate | exact Hfirst]. }
  destruct (decodeURIComponent (replace_plus (object_key record)))
    as [e|key] eqn:Hk.
  { unfold handler in Hrun. rewrite HR, Hk in Hrun. cbn [run] in Hrun.
    injection Hrun as <- <-.
    split; [split; [intros _; right; now exists record, rest, e
                   | reflexivity] |].
    split; [discriminate |]. split.
    - intros record' rest' e' Hr He. injection Hr as <- <-. congruence.
    - split; [| exact Hfirst].
      intros record' rest' key' Hr He. injection Hr as <- <-. congruence. }
  rewrite (run_handler _ _ _ _ _ env trigger record rest key HR Hk) in Hrun.
  destruct (pipeline_kinds _ _ _ _ _ Hrun) as (n & Hn & Hkinds & Hf & _).
  destruct n as [|n]; [lia |]. unfold script in Hkinds.
  destruct tr as [|ev later]; [discriminate Hkinds |].
  cbn [firstn map] in Hkinds. injection Hkinds as Hev _.
  split.
  { split; [discriminate |].
    intros [H|(record' & rest' & e' & Hr & He)]; [discriminate H |].
    injection Hr as <- <-. congruence. }
  split; [discriminate |]. split.
  { intros record' rest' e' Hr He. injection Hr as <- <-. congruence. }
  split; [| exact Hfirst].
  intros record' rest' key' Hr He. injection Hr as <- <-.
  assert (key' = key) as -> by congruence.
  exists ev, later. split; [reflexivity | split; [exact Hev |]].
  unfold fetched in Hf. cbn [flat_map] in Hf.
  destruct ev as [R c r]. destruct c; try discriminate Hev.
  cbn [fetched_of app] in Hf |- *. now injection Hf as -> ->.
Qed.

(** X7: the order of the calls.  The calls of an invocation are the
    first calls of the script: the fetch of the decoded key from the
    bucket of the record, the decoder of the ending of the key, the
    narrative, the JSON summary and the three writes; there is at least
    one and at most seven, one fetch, and the handler returns only after
    all seven, with the status 200. *)
Theorem calls_follow_script :
  forall env trigger key tr out,
    invocation env trigger key tr out ->
    exists n,
      1 <= n <= 7
      /\ map kind_of tr = firstn n (script key)
      /\ (forall resp, out = inr resp -> n = 7 /\ resp = ok_response)
      /\ (exists record rest,
            Records trigger = record :: rest
            /\ fetched tr = [(bucket_name record, key)]).
Proof.
  intros env trigger key tr out (record & rest & HR & Hk & Hrun).
  rewrite (run_handler _ _ _ _ _ env trigger record rest key HR Hk) in Hrun.
  destruct (pipeline_kinds _ _ _ _ _ Hrun) as (n & Hn & Hkinds & Hf & Hout).
  exists n. split; [exact Hn | split; [exact Hkinds | split]].
  - exact Hout.
  - exists record, rest. split; [exact HR | exact Hf].
Qed.

Lemma starts_white_trim_start s : starts_white (trim_start s) = false.
Proof.
  induction s as [|c s IH]; [reflexivity |]. cbn [trim_start].
  destruct (is_white_space c) eqn:E; [exact IH | exact E].
Qed.

Lemma ends_white_trim_end s : ends_white (trim_end s) = false.
Proof.
  induction s as [|c s IH]; [reflexivity |]. cbn [trim_end].
  destruct (trim_end s) as [|d r] eqn:E.
  - destruct (is_white_space c) eqn:Ec; [reflexivity | exact Ec].
  - exact IH.
Qed.

Lemma starts_white_trim_end s :
  starts_white s = false -> starts_white (trim_end s) = false.
Proof.
  destruct s as [|c s]; [reflexivity |]. cbn [starts_white trim_end].
  intros E. destruct (trim_end s); [now rewrite E | exact E].
Qed.

Lemma trim_no_white s :
  starts_white (trim s) = false /\ ends_white (trim s) = false.
Proof.
  unfold trim. split.
  - apply starts_white_trim_end, starts_white_trim_start.
  - apply ends_white_trim_end.
Qed.

(** X8: what is written.  An invocation writes nothing before both
    summaries were generated with content; what it then writes are, in
    this order, the content of the first choice of the narrative under
    the [.txt] key, that of the JSON summary under the [.json] key, both
    without white space at either end, and the encoded table of the
    decoded rows under the [.csv] key, all in the output bucket. *)
Theorem written_summaries_are_trimmed :
  forall env trigger key tr out,
    invocation env trigger key tr out ->
    puts tr <> [] ->
    exists c1 ch1 c2 ch2 rows m,
      generated tr = [Some c1 :: ch1; Some c2 :: ch2]
      /\ decoded tr = [rows]
      /\ 1 <= m
      /\ puts tr
         = firstn m
             [ (OUTPUT_BUCKET, outKey key "txt", trim c1);
               (OUTPUT_BUCKET, outKey key "json", trim c2);
               (OUTPUT_BUCKET, outKey key "csv",
                csvParser_parse (csvRows (buildProfile rows))) ]
      /\ starts_white (trim c1) = false /\ ends_white (trim c1) = false
      /\ starts_white (trim c2) = false /\ ends_white (trim c2) = false.
Proof.
  intros env trigger key tr out (record & rest & HR & Hk & Hrun) Hne.
  rewrite (run_handler _ _ _ _ _ env trigger record rest key HR Hk) in Hrun.
  destruct (pipeline_summaries _ _ _ _ _ Hrun)
    as [[Hp _]|(c1 & ch1 & c2 & ch2 & rows & m & Hg & Hd & Hm & Hp)];
    [contradiction |].
  exists c1, ch1, c2, ch2, rows, m.
  destruct (trim_no_white c1) as [H1 H2].
  destruct (trim_no_white c2) as [H3 H4].
  repeat split; assumption.
Qed.

(** X9: a summary without content.  When the text generation resolves to
    no choice, or to a first choice without content, the handler throws a
    TypeError and writes nothing. *)
Theorem missing_content_throws :
  forall env trigger key tr out choices,
    invocation env trigger key tr out ->
    In choices (generated tr) ->
    no_content choices = true ->
    out = inl (TypeError "Cannot read properties of undefined")
    /\ puts tr = [].
Proof.
  intros env trigger key tr out choices
    (record & rest & HR & Hk & Hrun) Hin Hno.
  rewrite (run_handler _ _ _ _ _ env trigger record rest key HR Hk) in Hrun.
  destruct (pipeline_summaries _ _ _ _ _ Hrun)
    as [[Hp Hout]|(c1 & ch1 & c2 & ch2 & rows & m & Hg & _)].
  - split; [now apply (Hout choices) | exact Hp].
  - rewrite Hg in Hin. destruct Hin as [<-|[<-|[]]]; discriminate Hno.
Qed.

(** X10: the writes of one invocation go to the output bucket, under keys
    that differ from one another. *)
Theorem writes_do_not_collide :
  forall env trigger key tr out,
    invocation env trigger key tr out ->
    NoDup (map (fun p => snd (fst p)) (puts tr))
    /\ Forall (fun p => fst (fst p) = OUTPUT_BUCKET) (puts tr).
Proof.
  intros env trigger key tr out Hinv.
  destruct (invocation_writes _ _ _ _ _ _ _ _ _ _ Hinv)
    as [(_ & -> & _)|(rows & t & j & n & _ & -> & _)].
  - split; constructor.
  - assert (Hd : forall e1 e2, e1 <> e2 -> outKey key e1 <> outKey key e2)
      by (intros e1 e2 He Hk; now apply outKey_inj in Hk).
    set (ws := writes csvParser_parse OUTPUT_BUCKET key rows t j).
    assert (Hk : NoDup (map (fun p => snd (fst p)) ws)).
    { unfold ws, writes. cbn [map fst snd].
      repeat constructor; cbn [In]; intros H;
        repeat match goal with
               | Hx : _ \/ _ |- _ => destruct Hx as [Hx|Hx]
               | Hx : False |- _ => destruct Hx
               | Hx : outKey _ _ = outKey _ _ |- _ =>
                   apply outKey_inj in Hx; discriminate Hx
               end. }
    assert (Hb : Forall (fun p => fst (fst p) = OUTPUT_BUCKET) ws)
      by (repeat constructor).
    rewrite <- (firstn_skipn n ws) in Hk, Hb.
    rewrite map_app in Hk. apply NoDup_app_remove_r in Hk.
    apply Forall_app in Hb as [Hb _]. split; assumption.
Qed.

Lemma pipeline_requests env bucket key tr out :
  run env [] (the_pipeline bucket key) = (tr, out) ->
  (decoded tr = [] /\ requests tr = [])
  \/ (exists rows k,
        decoded tr = [rows]
        /\ requests tr
           = firstn k
               [ (narrative_prompt JSON_stringify_numericCols
                    (buildProfile rows), false);
                 (structured_prompt JSON_stringify_profile
                    (buildProfile rows), true) ]).
Proof.
  intros H. exec env H.
  all: unfold requests, decoded;
    cbn [flat_map request_of decoded_of app].
  all: first
         [ left; split; reflexivity
         | right;
           match goal with
           | |- context [?l = firstn _ _] =>
               eexists _, (List.length l)
           end;
           split; reflexivity ].
Qed.

(** X15: what the text generation is sent.  The requests of an
    invocation that decoded [rows] are the narrative prompt in free-text
    mode and then the structured prompt in JSON mode, both made from the
    profile of the rows alone: the row count and the encoded statistics,
    never the cells.  An invocation that decoded nothing sends no
    request. *)
Theorem requests_carry_the_profile_only :
  forall env trigger key tr out,
    invocation env trigger key tr out ->
    (decoded tr = [] /\ requests tr = [])
    \/ (exists rows k,
          decoded tr = [rows]
          /\ requests tr
             = firstn k
                 [ (narrative_prompt JSON_stringify_numericCols
                      (buildProfile rows), false);
                   (structured_prompt JSON_stringify_profile
                      (buildProfile rows), true) ]).
Proof.
  intros env trigger key tr out (record & rest & HR & Hk & Hrun).
  rewrite (run_handler _ _ _ _ _ env trigger record rest key HR Hk) in Hrun.
  exact (pipeline_requests _ _ _ _ _ Hrun).
Qed.

End HandlerCalls.

(** ** The further properties on the sample collaborators *)

Lemma no_call_iff_trigger_unusable_witness :
  run (ok_env "A summary.") [] (strict_handler (event_for "50%.csv"))
  = ([], inl URIError)
  /\ fst (run (ok_env "A summary.") []
            (strict_handler (event_for "data.csv"))) <> [].
Proof.
  split.
  - destruct (no_call_iff_trigger_unusable
                strict_decodeURIComponent sample_stringify_numericCols
                sample_stringify_profile sample_csv "out-bucket"
                (ok_env "A summary.") (event_for "50%.csv") _ _
                (surjective_pairing _)) as (Hiff & _ & He & _).
    apply injective_projections; cbn [fst snd].
    + apply Hiff. right.
      now exists {| object_key := "50%.csv"; bucket_name := "in-bucket" |},
             [], URIError.
    + exact (He _ _ _ eq_refl eq_refl).
  - destruct (no_call_iff_trigger_unusable
                strict_decodeURIComponent sample_stringify_numericCols
                sample_stringify_profile sample_csv "out-bucket"
                (ok_env "A summary.") (event_for "data.csv") _ _
                (surjective_pairing _)) as (Hiff & _).
    intros Hnil.
    destruct (proj1 Hiff Hnil) as [H|(record & rest & e & HR & Hd)];
      [discriminate H |].
    injection HR as <- <-. vm_compute in Hd. discriminate Hd.
Defined.

Lemma calls_follow_script_witness :
  exists n,
    map kind_of
        (fst (run json_put_fails [] (sample_handler (event_for "data.csv"))))
    = firstn n [Fetch; DecodeCsv; Generate false; Generate true;
                Write; Write; Write]
    /\ 1 <= n <= 7.
Proof.
  destruct (calls_follow_script
              sample_decodeURIComponent sample_stringify_numericCols
              sample_stringify_profile sample_csv "out-bucket"
              _ _ _ _ _
              (sample_invocation_run json_put_fails "data.csv"))
    as (n & Hn & Hk & _).
  exists n. split; [exact Hk | exact Hn].
Defined.

Lemma written_summaries_are_trimmed_witness :
  let tr := fst (run (ok_env "  A summary.  ") []
                   (sample_handler (event_for "data.csv"))) in
  exists c1 ch1 c2 ch2 m,
    generated tr = [Some c1 :: ch1; Some c2 :: ch2]
    /\ 1 <= m
    /\ puts tr
       = firstn m
           [ ("out-bucket", "summaries/data.txt", trim c1);
             ("out-bucket", "summaries/data.json", trim c2);
             ("out-bucket", "summaries/data.csv",
              sample_csv (csvRows (buildProfile scenario_rows))) ]
    /\ starts_white (trim c1) = false /\ ends_white (trim c1) = false.
Proof.
  cbv zeta.
  destruct (written_summaries_are_trimmed
              sample_decodeURIComponent sample_stringify_numericCols
              sample_stringify_profile sample_csv "out-bucket"
              _ _ _ _ _
              (sample_invocation_run (ok_env "  A summary.  ") "data.csv"))
    as (c1 & ch1 & c2 & ch2 & rows & m & Hg & Hd & Hm & Hp & H1 & H2 & _).
  { vm_compute. discriminate. }
  assert (Hrows : rows = scenario_rows).
  { assert (H : decoded
                  (fst (run (ok_env "  A summary.  ") []
                          (sample_handler (event_for "data.csv"))))
                = [scenario_rows]) by reflexivity.
    rewrite Hd in H. now injection H. }
  subst rows.
  exists c1, ch1, c2, ch2, m. repeat split; assumption.
Defined.

Lemma missing_content_throws_witness :
  let r := run narrative_without_content []
             (sample_handler (event_for "data.csv")) in
  In [None] (generated (fst r))
  /\ snd r = inl (TypeError "Cannot read properties of undefined")
  /\ puts (fst r) = [].
Proof.
  cbv zeta.
  assert (Hin : In [None]
                   (generated
                      (fst (run narrative_without_content []
                              (sample_handler (event_for "data.csv"))))))
    by (vm_compute; left; reflexivity).
  split; [exact Hin |].
  exact (missing_content_throws
           sample_decodeURIComponent sample_stringify_numericCols
           sample_stringify_profile sample_csv "out-bucket"
           _ _ _ _ _ [None]
           (sample_invocation_run narrative_without_content "data.csv")
           Hin eq_refl).
Defined.

Lemma writes_do_not_collide_witness :
  let tr := fst (run (ok_env "A summary.") []
                   (sample_handler (event_for "data.csv"))) in
  List.length (puts tr) = 3
  /\ NoDup (map (fun p => snd (fst p)) (puts tr))
  /\ Forall (fun p => fst (fst p) = "out-bucket") (puts tr).
Proof.
  cbv zeta. split; [reflexivity |].
  exact (writes_do_not_collide
           sample_decodeURIComponent sample_stringify_numericCols
           sample_stringify_profile sample_csv "out-bucket"
           _ _ _ _ _
           (sample_invocation_run (ok_env "A summary.") "data.csv")).
Defined.

Lemma requests_carry_the_profile_only_witness :
  let tr := fst (run (ok_env "A summary.") []
                   (sample_handler (event_for "data.csv"))) in
  exists k,
    requests tr
    = firstn k
        [ (narrative_prompt sample_stringify_numericCols
             (buildProfile scenario_rows), false);
          (structured_prompt sample_stringify_profile
             (buildProfile scenario_rows), true) ]
    /\ List.length (requests tr) = 2.
Proof.
  cbv zeta.
  destruct (requests_carry_the_profile_only
              sample_decodeURIComponent sample_stringify_numericCols
              sample_stringify_profile sample_csv "out-bucket"
              _ _ _ _ _
              (sample_invocation_run (ok_env "A summary.") "data.csv"))
    as [[Hd _]|(rows & k & Hd & Hr)].
  - discriminate Hd.
  - assert (Hrows : rows = scenario_rows).
    { assert (H : decoded
                    (fst (run (ok_env "A summary.") []
                            (sample_handler (event_for "data.csv"))))
                  = [scenario_rows]) by reflexivity.
      rewrite Hd in H. now injection H. }
    subst rows. exists k. split; [exact Hr | reflexivity].
Defined.

(** * The names of the rows of the table *)

(** X16: the names in the table.  For a first row whose keys are
    distinct, the [Column] fields of the table are [__ROWCOUNT__] and
    then the profiled keys of the first row in the order of
    [Object.keys]; so when a profiled column is itself named
    [__ROWCOUNT__] the table has two rows of that name. *)
Theorem table_column_names :
  forall sample rest,
    NoDup (map fst sample) ->
    map Column (csvRows (buildProfile (sample :: rest)))
    = "__ROWCOUNT__"
      :: filter (profiled (sample :: rest)) (Object_keys sample)
    /\ (In "__ROWCOUNT__" (map fst sample) ->
        column_numbers (sample :: rest) "__ROWCOUNT__" <> [] ->
        count_occ string_dec
          (map Column (csvRows (buildProfile (sample :: rest))))
          "__ROWCOUNT__" = 2).
Proof.
  intros sample rest Hnd.
  pose proof (Object_keys_NoDup sample Hnd) as Hk.
  assert (E : map Column (csvRows (buildProfile (sample :: rest)))
              = "__ROWCOUNT__"
                :: filter (profiled (sample :: rest)) (Object_keys sample)).
  { unfold csvRows. rewrite numericCols_order. cbn [map rowcount_row Column].
    f_equal. rewrite map_map.
    rewrite (map_ext (fun x => Column (stat_row x)) fst)
      by (intros [c st]; reflexivity).
    cbn [buildProfile numericCols].
    now rewrite fold_profile_column_keys by (auto; intros c _ []). }
  split; [exact E |].
  intros Hin Hne. rewrite E. cbn [count_occ].
  destruct (string_dec "__ROWCOUNT__" "__ROWCOUNT__") as [_|C];
    [| now destruct C].
  f_equal. apply NoDup_count_occ'; [now apply NoDup_filter |].
  apply filter_In. split.
  - unfold Object_keys.
    apply (Permutation_in _ (Permutation_map fst
                               (own_property_order_perm sample)) Hin).
  - unfold profiled. cbn [String.eqb Ascii.eqb Bool.eqb negb andb].
    destruct (column_numbers (sample :: rest) "__ROWCOUNT__");
      [congruence | reflexivity].
Qed.

Lemma table_column_names_witness :
  map Column (csvRows (buildProfile rowcount_column_rows))
  = ["__ROWCOUNT__"; "__ROWCOUNT__"; "amt"]
  /\ count_occ string_dec
       (map Column (csvRows (buildProfile rowcount_column_rows)))
       "__ROWCOUNT__" = 2.
Proof.
  assert (Hnd : NoDup (map fst [("__ROWCOUNT__", VString "5");
                                ("amt", VString "1")]))
    by (repeat constructor; simpl; intuition discriminate).
  destruct (table_column_names _ [] Hnd) as [H1 H2].
  split; [exact H1 |].
  apply H2; [now left | vm_compute; discriminate].
Defined.

(** * The text of the table *)

(** ** Reading what the encoder wrote *)








(** ** The rows and their order *)







Section WrittenTable.

Variable decodeURIComponent : string -> exn + string.
Variable JSON_stringify_numericCols : object ColumnStat -> string.
Variable JSON_stringify_profile : DatasetProfile -> string.
Variable csvParser_parse : list csvRow -> string.
Variable OUTPUT_BUCKET : string.


End WrittenTable.



